(** * Tracking gateway of bookcars: rate limiter, device resolver,
      single-vehicle endpoint and fleet aggregator.

    Shallow embedding of
      backend/src/services/traccarApi.ts
      backend/src/controllers/trackingController.ts
    The module-level ledger [lastRequestByAdmin], the database and the
    provider are made explicit: the ledger and an effect log are threaded
    through every handler, the database and the HTTP client are oracles. *)

From Stdlib Require Import ZArith Ascii String List Lia PrimFloat.
From stdpp Require Import base option gmap strings list.

#[local] Set Warnings "-inexact-float".

Local Open Scope Z_scope.
Local Open Scope string_scope.

(** ** JavaScript truthiness of the values the code tests with [!x], [&&], [||] *)

(** A [number | undefined | null]: falsy when missing or [0]. *)
Definition truthy_num (v : option Z) : bool :=
  match v with
  | Some n => negb (Z.eqb n 0)
  | None => false
  end.

(** A [string | undefined | null]: falsy when missing or empty. *)
Definition truthy_str (v : option string) : bool :=
  match v with
  | Some s => negb (String.eqb s "")
  | None => false
  end.

(** [a || b] on optional strings. *)
Definition or_str (a b : option string) : option string :=
  if truthy_str a then a else b.

(** ** traccarApi.ts: provider data *)

Definition TRACCAR_NOT_CONFIGURED : string := "TRACCAR_NOT_CONFIGURED".

Record TraccarDevice := {
  dev_id : Z;
  dev_uniqueId : option string;
  dev_positionId : option Z;
  dev_name : option string
}.

Record TraccarPosition := {
  pos_id : Z;
  pos_deviceId : Z;
  latitude : float;
  longitude : float;
  pos_speed : option float;
  pos_course : option float;
  pos_fixTime : option string;
  pos_deviceTime : option string;
  pos_serverTime : option string;
  pos_address : option string
}.

Record NormalizedPosition := {
  lat : float;
  lon : float;
  speed : option float;
  course : option float;
  fixTime : option string;
  address : option string
}.

Definition normalizePosition (position : TraccarPosition) : NormalizedPosition :=
  {| lat := latitude position;
     lon := longitude position;
     speed := pos_speed position;
     course := pos_course position;
     fixTime := or_str (or_str (pos_fixTime position) (pos_deviceTime position))
                       (pos_serverTime position);
     address := pos_address position |}.

(** The timestamp as the specification words it, where a time the
    record has is any text, the empty one included: the fix time if
    present, else the device time if present, else the server time. *)
Definition timestamp_as_stated (position : TraccarPosition) : option string :=
  match pos_fixTime position with
  | Some t => Some t
  | None =>
    match pos_deviceTime position with
    | Some d => Some d
    | None => pos_serverTime position
    end
  end.

(** ** Thrown values

    Everything the code throws or catches is an [Error]; an axios failure
    carries, when the provider answered, the HTTP status
    ([err.response?.status]). *)
Inductive exn :=
  | PlainError (message : string)
  | AxiosError (message : string) (response_status : option Z).

Definition message_of (e : exn) : string :=
  match e with
  | PlainError m => m
  | AxiosError m _ => m
  end.

(** [axios.isAxiosError(err) && err.response?.status === 404] *)
Definition is_axios_404 (e : exn) : bool :=
  match e with
  | AxiosError _ (Some st) => Z.eqb st 404
  | _ => false
  end.

(** [err instanceof Error && err.message === traccarApi.TRACCAR_NOT_CONFIGURED] *)
Definition is_not_configured (e : exn) : bool :=
  String.eqb (message_of e) TRACCAR_NOT_CONFIGURED.

(** What an awaited call gives back: a value, or a thrown error. *)
Inductive outcome (A : Type) :=
  | Returns (a : A)
  | Throws (e : exn).
Arguments Returns {A} a.
Arguments Throws {A} e.

(** ** Shared state: the rate-limit ledger, and a log of the outside calls *)

Inductive event :=
  | EvFindById (carId : string)
  | EvFindMapped
  | EvGetDevice (deviceId : Z)
  | EvGetPosition (positionId : Z)
  | EvLogError (e : exn).

Record world := {
  lastRequestByAdmin : gmap string Z;
  trace : list event
}.

Definition emit (ev : event) (w : world) : world :=
  {| lastRequestByAdmin := lastRequestByAdmin w; trace := trace w ++ [ev] |}.

(** A computation that reads and updates the world and may throw. *)
Definition M (A : Type) : Type := world -> outcome A * world.

Definition ret {A} (a : A) : M A := fun w => (Returns a, w).
Definition throw {A} (e : exn) : M A := fun w => (Throws e, w).
Definition bind {A B} (m : M A) (k : A -> M B) : M B :=
  fun w => match m w with
           | (Returns a, w') => k a w'
           | (Throws e, w') => (Throws e, w')
           end.
Definition try_catch {A} (m : M A) (h : exn -> M A) : M A :=
  fun w => match m w with
           | (Returns a, w') => (Returns a, w')
           | (Throws e, w') => h e w'
           end.
Definition tell (ev : event) : M unit := fun w => (Returns tt, emit ev w).
Definition lift {A} (o : outcome A) : M A := fun w => (o, w).

Notation "'let*' x ':=' m 'in' k" := (bind m (fun x => k))
  (at level 10, x name, m at level 100, k at level 200, only parsing).
Notation "'run' m 'in' k" := (bind m (fun _ => k))
  (at level 10, m at level 100, k at level 200, only parsing).

(** ** Configuration and collaborators

    [config/env.config], [utils/helper], the [Car] model and the axios
    client lie outside the two files: their constants are taken as
    parameters, their calls as oracles. *)

Record env_config := {
  TRACCAR_BASE_URL : option string;
  TRACCAR_USER : option string;
  TRACCAR_PASS : option string;
  TRACCAR_MIN_POLL_INTERVAL : Z
}.

(** A [Car] document restricted to
    [.select('name licensePlate traccarDeviceId traccarUniqueId')]. *)
Record CarDoc := {
  doc_id : string;
  doc_name : string;
  doc_licensePlate : option string;
  doc_traccarDeviceId : option Z;
  doc_traccarUniqueId : option string
}.

Record collaborators := {
  isValidObjectId : string -> bool;
  (** [Car.findById(id)...lean()] *)
  Car_findById : string -> outcome (option CarDoc);
  (** the documents of the [Car] collection, in the order a [find] yields them *)
  Car_documents : outcome (list CarDoc);
  (** [api.get(`/api/devices/${deviceId}`)] then [res.data as TraccarDevice] *)
  api_get_device : Z -> outcome TraccarDevice;
  (** [api.get(`/api/positions/${positionId}`)] then
      [res.data as TraccarPosition | undefined] *)
  api_get_position : Z -> outcome (option TraccarPosition)
}.

(** ** trackingController.ts: payloads *)

Inductive TrackingStatus :=
  | ok
  | no_fix_yet
  | not_mapped
  | device_not_found
  | car_not_found
  | traccar_not_configured
  | traccar_error
  | rate_limited.

Record TrackedCar := {
  carId : string;
  name : string;
  licensePlate : option string;
  traccarDeviceId : option Z;
  traccarUniqueId : option string
}.

Record CarTrackingPayload := {
  status : TrackingStatus;
  car : option TrackedCar;
  position : option NormalizedPosition;
  pollAfterSeconds : Z
}.

(** [TrackedCar & { status; position? }], built as [{ ...trackedCar, status }] *)
Record FleetCar := {
  fleet_car : TrackedCar;
  car_status : TrackingStatus;
  car_position : option NormalizedPosition
}.

Record FleetTrackingPayload := {
  fleet_status : TrackingStatus;
  fleet_pollAfterSeconds : Z;
  cars : list FleetCar
}.

(** [res.status(code).send(payload)]; [res.json(payload)] is code 200. *)
Record response (P : Type) := {
  code : Z;
  payload : P
}.
Arguments code {P} r.
Arguments payload {P} r.

Definition send {P} (c : Z) (p : P) : response P := {| code := c; payload := p |}.
Definition json {P} (p : P) : response P := send 200 p.

(** [res.locals.admin as { id?: string } | undefined] *)
Record AdminLocals := { id : option string }.

(** [admin?.id || 'admin'] *)
Definition adminIdOf (admin : option AdminLocals) : string :=
  match admin with
  | Some a => if truthy_str (id a) then default "admin" (id a) else "admin"
  | None => "admin"
  end.

Definition mapCar (c : CarDoc) : TrackedCar :=
  {| carId := doc_id c;
     name := doc_name c;
     licensePlate := doc_licensePlate c;
     traccarDeviceId := doc_traccarDeviceId c;
     traccarUniqueId := doc_traccarUniqueId c |}.

(** The value a [number]-typed use sees once the test [!x] has excluded
    the missing cases (and the unchecked cast [as number] of the fleet
    loop, whose query only yields documents that hold a number). *)
Definition as_number (v : option Z) : Z := default 0 v.

Section Gateway.

Variable env : env_config.
Variable io : collaborators.

(** [env.TRACCAR_MIN_POLL_INTERVAL || 5] *)
Definition pollIntervalSeconds : Z :=
  if Z.eqb (TRACCAR_MIN_POLL_INTERVAL env) 0 then 5 else TRACCAR_MIN_POLL_INTERVAL env.

Definition pollIntervalMs : Z := pollIntervalSeconds * 1000.

Definition rateKey (adminId scope : string) : string :=
  adminId +:+ ":" +:+ scope.

(** [now] is the reading of [Date.now()]. *)
Definition enforceRateLimit (adminId scope : string) (now : Z) : M bool :=
  fun w =>
    let key := rateKey adminId scope in
    let last := lastRequestByAdmin w !! key in
    if truthy_num last && Z.ltb (now - as_number last) pollIntervalMs
    then (Returns false, w)
    else (Returns true,
          {| lastRequestByAdmin := <[key := now]> (lastRequestByAdmin w);
             trace := trace w |}).

(** *** traccarApi.ts: client *)

Definition getClient : M unit :=
  if negb (truthy_str (TRACCAR_BASE_URL env))
     || negb (truthy_str (TRACCAR_USER env))
     || negb (truthy_str (TRACCAR_PASS env))
  then throw (PlainError TRACCAR_NOT_CONFIGURED)
  else ret tt.

Definition getDevice (deviceId : Z) : M (option TraccarDevice) :=
  run getClient in
  try_catch
    (run tell (EvGetDevice deviceId) in
     let* data := lift (api_get_device io deviceId) in
     ret (Some data))
    (fun err => if is_axios_404 err then ret None else throw err).

Definition getPosition (positionId : Z) : M (option NormalizedPosition) :=
  run getClient in
  try_catch
    (run tell (EvGetPosition positionId) in
     let* data := lift (api_get_position io positionId) in
     match data with
     | None => ret None
     | Some position => ret (Some (normalizePosition position))
     end)
    (fun err => if is_axios_404 err then ret None else throw err).

(** *** trackingController.ts: single vehicle *)

Definition carPayload (st : TrackingStatus) (c : option TrackedCar)
    (p : option NormalizedPosition) : CarTrackingPayload :=
  {| status := st; car := c; position := p; pollAfterSeconds := pollIntervalSeconds |}.

(** The resolution of a found vehicle, the part of the [try] block of
    [getCarTracking] that follows the lookup. *)
Definition resolveCar (car : CarDoc) : M (response CarTrackingPayload) :=
  if negb (truthy_num (doc_traccarDeviceId car)) && negb (truthy_str (doc_traccarUniqueId car))
  then ret (send 404 (carPayload not_mapped (Some (mapCar car)) None))
  else if negb (truthy_num (doc_traccarDeviceId car))
  then ret (send 404 (carPayload not_mapped (Some (mapCar car)) None))
  else
    let* device := getDevice (as_number (doc_traccarDeviceId car)) in
    match device with
    | None => ret (send 404 (carPayload device_not_found (Some (mapCar car)) None))
    | Some device =>
      if negb (truthy_num (dev_positionId device))
      then ret (json (carPayload no_fix_yet (Some (mapCar car)) None))
      else
        let* position := getPosition (as_number (dev_positionId device)) in
        match position with
        | None => ret (json (carPayload no_fix_yet (Some (mapCar car)) None))
        | Some p => ret (json (carPayload ok (Some (mapCar car)) (Some p)))
        end
    end.

(** The body of the [try] block of [getCarTracking]. *)
Definition carTrackingBody (carId : string) : M (response CarTrackingPayload) :=
  let* found := (run tell (EvFindById carId) in lift (Car_findById io carId)) in
  match found with
  | None => ret (send 404 (carPayload car_not_found None None))
  | Some car => resolveCar car
  end.

(** The [catch] block of [getCarTracking]. *)
Definition carTrackingCatch (err : exn) : M (response CarTrackingPayload) :=
  if is_not_configured err
  then ret (send 503 (carPayload traccar_not_configured None None))
  else
    run tell (EvLogError err) in
    ret (send 502 (carPayload traccar_error None None)).

Definition getCarTracking (carId : string) (admin : option AdminLocals) (now : Z)
    : M (response CarTrackingPayload) :=
  if negb (isValidObjectId io carId)
  then ret (send 400 (carPayload car_not_found None None))
  else
    let* admitted := enforceRateLimit (adminIdOf admin) ("car-" +:+ carId) now in
    if negb admitted
    then ret (send 429 (carPayload rate_limited None None))
    else try_catch (carTrackingBody carId) carTrackingCatch.

(** *** trackingController.ts: fleet *)

Definition fleetPayload (st : TrackingStatus) (cs : list FleetCar) : FleetTrackingPayload :=
  {| fleet_status := st; fleet_pollAfterSeconds := pollIntervalSeconds; cars := cs |}.

(** [{ ...trackedCar, status }] and [{ ...trackedCar, status: 'ok', position }] *)
Definition fleetCar (c : TrackedCar) (st : TrackingStatus)
    (p : option NormalizedPosition) : FleetCar :=
  {| fleet_car := c; car_status := st; car_position := p |}.

(** [Car.find({ traccarDeviceId: { $exists: true, $ne: null } })] *)
Definition mappedQuery (c : CarDoc) : bool :=
  match doc_traccarDeviceId c with
  | Some _ => true
  | None => false
  end.

Definition Car_find_mapped : M (list CarDoc) :=
  run tell EvFindMapped in
  let* docs := lift (Car_documents io) in
  ret (List.filter mappedQuery docs).

(** One turn of the [for] loop either pushes an entry and goes on, or
    has sent a response and leaves the handler. *)
Inductive turn :=
  | Push (entry : FleetCar)
  | Leave (r : response FleetTrackingPayload).

(** The [try] block inside the loop. *)
Definition fleetTurnBody (car : CarDoc) : M turn :=
  let trackedCar := mapCar car in
  let* device := getDevice (as_number (doc_traccarDeviceId car)) in
  match device with
  | None => ret (Push (fleetCar trackedCar device_not_found None))
  | Some device =>
    if negb (truthy_num (dev_positionId device))
    then ret (Push (fleetCar trackedCar no_fix_yet None))
    else
      let* position := getPosition (as_number (dev_positionId device)) in
      match position with
      | None => ret (Push (fleetCar trackedCar no_fix_yet None))
      | Some p => ret (Push (fleetCar trackedCar ok (Some p)))
      end
  end.

(** The [catch] block inside the loop. *)
Definition fleetTurnCatch (car : CarDoc) (err : exn) : M turn :=
  if is_not_configured err
  then ret (Leave (send 503 (fleetPayload traccar_not_configured [])))
  else
    run tell (EvLogError err) in
    ret (Push (fleetCar (mapCar car) traccar_error None)).

Definition fleetTurn (car : CarDoc) : M turn :=
  try_catch (fleetTurnBody car) (fleetTurnCatch car).

(** [for (const car of cars) { ... }  res.json(payload)], with
    [pushed] the contents of [payload.cars] so far. *)
Fixpoint fleetLoop (loaded : list CarDoc) (pushed : list FleetCar)
    : M (response FleetTrackingPayload) :=
  match loaded with
  | [] => ret (json (fleetPayload ok pushed))
  | car :: rest =>
    let* t := fleetTurn car in
    match t with
    | Push entry => fleetLoop rest (pushed ++ [entry])
    | Leave r => ret r
    end
  end.

(** The outer [catch] block of [getFleetTracking]. *)
Definition fleetCatch (err : exn) : M (response FleetTrackingPayload) :=
  if is_not_configured err
  then ret (send 503 (fleetPayload traccar_not_configured []))
  else
    run tell (EvLogError err) in
    ret (send 502 (fleetPayload traccar_error [])).

Definition getFleetTracking (admin : option AdminLocals) (now : Z)
    : M (response FleetTrackingPayload) :=
  let* admitted := enforceRateLimit (adminIdOf admin) "fleet" now in
  if negb admitted
  then ret (send 429 (fleetPayload rate_limited []))
  else
    try_catch
      (let* loaded := Car_find_mapped in fleetLoop loaded [])
      fleetCatch.

(** *** Notions the statements about the fleet loop use *)

(** A world with an empty ledger and an empty log. What a turn of the
    loop decides does not depend on the world it runs in. *)
Definition blank : world := {| lastRequestByAdmin := ∅; trace := [] |}.

(** The [try] block of the turn for [car] throws the error that the
    [catch] block takes for "provider unconfigured". *)
Definition raises_unconfigured (car : CarDoc) : bool :=
  match (fleetTurnBody car blank).1 with
  | Throws e => is_not_configured e
  | Returns _ => false
  end.

(** The [try] block of the turn for [car] throws. *)
Definition fails (car : CarDoc) : bool :=
  match (fleetTurnBody car blank).1 with
  | Throws _ => true
  | Returns _ => false
  end.

(** [entry] is the entry of [car] alone: it names [car]; when the [try]
    block of its turn throws it is the [traccar_error] entry, and
    otherwise it is the entry that block pushes. *)
Definition own_entry (car : CarDoc) (entry : FleetCar) : Prop :=
  fleet_car entry = mapCar car /\
  (fails car = true ->
     car_status entry = traccar_error /\ car_position entry = None) /\
  (fails car = false ->
     (fleetTurnBody car blank).1 = Returns (Push entry)).


(** The response of the abort on "provider unconfigured". *)
Definition unconfiguredResponse : response FleetTrackingPayload :=
  send 503 (fleetPayload traccar_not_configured []).

Definition per_vehicle_status (st : TrackingStatus) : bool :=
  match st with
  | ok | no_fix_yet | device_not_found | traccar_error => true
  | not_mapped | car_not_found | rate_limited | traccar_not_configured => false
  end.

(** [getClient] does not throw. *)
Definition configured : bool :=
  truthy_str (TRACCAR_BASE_URL env)
  && truthy_str (TRACCAR_USER env)
  && truthy_str (TRACCAR_PASS env).

(** *** Notions the statements about the rate limiter use *)

(** The ledger after [now] has been recorded for [key]. *)
Definition recorded (key : string) (now : Z) (w : world) : world :=
  {| lastRequestByAdmin := <[key := now]> (lastRequestByAdmin w); trace := trace w |}.

(** The window of [key] is open at [now]: nothing was accepted for it
    yet, or the last accepted request is at least the interval old. *)
Definition window_open (key : string) (now : Z) (w : world) : Prop :=
  lastRequestByAdmin w !! key = None \/
  exists last, lastRequestByAdmin w !! key = Some last /\ pollIntervalMs <= now - last.

(** Readings of [Date.now()] are milliseconds since the epoch; the
    reading [0] is the one number the test [last && ...] takes for a
    missing entry. *)
Definition readings_nonzero (w : world) : Prop :=
  forall key t, lastRequestByAdmin w !! key = Some t -> t <> 0.

(** The two kinds of scope the handlers pass to [enforceRateLimit]:
    [`car-${carId}`] and ['fleet']. *)
Inductive scope_of :=
  | ScopeCar (carId : string)
  | ScopeFleet.

Definition scope_string (sc : scope_of) : string :=
  match sc with
  | ScopeCar carId => "car-" +:+ carId
  | ScopeFleet => "fleet"
  end.

End Gateway.

(** *** The resolution as the specification words it

    Here "no provider device id" and "no latest-position pointer" are the
    missing values only, so that the numbers [0] count as an id and as a
    pointer. [None] where the wording says nothing: a failure other than
    404, an empty answer. *)
Definition resolution_as_stated (io : collaborators) (car : CarDoc)
    : option (TrackingStatus * option NormalizedPosition) :=
  match doc_traccarDeviceId car with
  | None => Some (not_mapped, None)
  | Some d =>
    match api_get_device io d with
    | Throws e => if is_axios_404 e then Some (device_not_found, None) else None
    | Returns device =>
      match dev_positionId device with
      | None => Some (no_fix_yet, None)
      | Some p =>
        match api_get_position io p with
        | Throws e => if is_axios_404 e then Some (no_fix_yet, None) else None
        | Returns (Some position) => Some (ok, Some (normalizePosition position))
        | Returns None => None
        end
      end
    end
  end.

(** The resolver answers [car] with the status and position of the
    wording above, wherever the wording gives one. *)
Definition resolves_as_stated (env : env_config) (io : collaborators) (car : CarDoc) : Prop :=
  forall st p,
    resolution_as_stated io car = Some (st, p) ->
    exists r w',
      resolveCar env io car blank = (Returns r, w') /\
      status (payload r) = st /\
      position (payload r) = p.

(** ** A small deployment to run the handlers on

    One configured and one unconfigured environment, four vehicles and
    a provider that knows device 42 (last position 900) and device 45
    (no position yet), answers 404 for device 43 and times out on
    device 44. *)

Definition demo_env : env_config :=
  {| TRACCAR_BASE_URL := Some "http://traccar:8082";
     TRACCAR_USER := Some "admin";
     TRACCAR_PASS := Some "admin";
     TRACCAR_MIN_POLL_INTERVAL := 0 |}.

Definition unset_env : env_config :=
  {| TRACCAR_BASE_URL := None;
     TRACCAR_USER := None;
     TRACCAR_PASS := None;
     TRACCAR_MIN_POLL_INTERVAL := 0 |}.

Definition demo_car (n : string) (dev : option Z) (imei : option string) : CarDoc :=
  {| doc_id := "65f0c0ffee00000000000" +:+ n;
     doc_name := "Demo car " +:+ n;
     doc_licensePlate := None;
     doc_traccarDeviceId := dev;
     doc_traccarUniqueId := imei |}.

Definition car_v1 : CarDoc := demo_car "001" (Some 42) (Some "demo-imei-42").
Definition car_gone : CarDoc := demo_car "002" (Some 43) None.
Definition car_down : CarDoc := demo_car "003" (Some 44) None.
Definition car_zero : CarDoc := demo_car "004" (Some 0) (Some "demo-imei-0").
Definition car_plain : CarDoc := demo_car "005" None None.
Definition car_new : CarDoc := demo_car "006" (Some 45) None.

Definition demo_docs : list CarDoc :=
  [car_v1; car_plain; car_down; car_gone].

Definition position_900 : TraccarPosition :=
  {| pos_id := 900;
     pos_deviceId := 42;
     latitude := 51.5%float;
     longitude := (-0.12)%float;
     pos_speed := Some 10%float;
     pos_course := None;
     pos_fixTime := Some "2024-05-01T10:00:00.000+00:00";
     pos_deviceTime := Some "2024-05-01T10:00:01.000+00:00";
     pos_serverTime := Some "2024-05-01T10:00:02.000+00:00";
     pos_address := None |}.

Definition position_late : TraccarPosition :=
  {| pos_id := 901;
     pos_deviceId := 42;
     latitude := 51.5%float;
     longitude := (-0.12)%float;
     pos_speed := None;
     pos_course := None;
     pos_fixTime := None;
     pos_deviceTime := Some "2024-05-01T10:00:01.000+00:00";
     pos_serverTime := Some "2024-05-01T10:00:02.000+00:00";
     pos_address := None |}.

Definition position_blank_fix : TraccarPosition :=
  {| pos_id := 902;
     pos_deviceId := 42;
     latitude := 51.5%float;
     longitude := (-0.12)%float;
     pos_speed := None;
     pos_course := None;
     pos_fixTime := Some "";
     pos_deviceTime := Some "2024-05-01T10:00:01.000+00:00";
     pos_serverTime := Some "2024-05-01T10:00:02.000+00:00";
     pos_address := None |}.

Definition position_blank_device : TraccarPosition :=
  {| pos_id := 903;
     pos_deviceId := 42;
     latitude := 51.5%float;
     longitude := (-0.12)%float;
     pos_speed := None;
     pos_course := None;
     pos_fixTime := None;
     pos_deviceTime := Some "";
     pos_serverTime := Some "2024-05-01T10:00:02.000+00:00";
     pos_address := None |}.

Definition not_found_404 : exn :=
  AxiosError "Request failed with status code 404" (Some 404).

Definition timed_out : exn :=
  AxiosError "timeout of 10000ms exceeded" None.

Definition demo_io (docs : list CarDoc) : collaborators :=
  {| isValidObjectId := fun s => Nat.eqb (String.length s) 24;
     Car_findById := fun i =>
       Returns (List.find (fun c => String.eqb (doc_id c) i) docs);
     Car_documents := Returns docs;
     api_get_device := fun d =>
       if Z.eqb d 42 then
         Returns {| dev_id := 42; dev_uniqueId := Some "demo-imei-42";
                    dev_positionId := Some 900; dev_name := Some "Demo car 001" |}
       else if Z.eqb d 45 then
         Returns {| dev_id := 45; dev_uniqueId := None;
                    dev_positionId := None; dev_name := None |}
       else if Z.eqb d 44 then Throws timed_out
       else Throws not_found_404;
     api_get_position := fun p =>
       if Z.eqb p 900 then Returns (Some position_900)
       else Throws not_found_404 |}.

(** A provider that numbers from [0]: device 0 has last position 900,
    device 46 has last position 0, and both positions exist. *)
Definition car_fresh : CarDoc := demo_car "007" (Some 46) None.

Definition zero_io : collaborators :=
  {| isValidObjectId := isValidObjectId (demo_io [car_zero; car_fresh]);
     Car_findById := Car_findById (demo_io [car_zero; car_fresh]);
     Car_documents := Car_documents (demo_io [car_zero; car_fresh]);
     api_get_device := fun d =>
       if Z.eqb d 0 then
         Returns {| dev_id := 0; dev_uniqueId := Some "demo-imei-0";
                    dev_positionId := Some 900; dev_name := None |}
       else if Z.eqb d 46 then
         Returns {| dev_id := 46; dev_uniqueId := None;
                    dev_positionId := Some 0; dev_name := None |}
       else Throws not_found_404;
     api_get_position := fun p =>
       if Z.eqb p 900 then Returns (Some position_900)
       else if Z.eqb p 0 then Returns (Some position_late)
       else Throws not_found_404 |}.

(** * The code around the handlers

    [getLastPositionByDevice] of traccarApi.ts, runs of the limiter,
    the middleware of adminGuard.ts, the routes that put it in front of
    the handlers, and what the fleet page of the admin application
    computes from a fleet response. *)

(** ** traccarApi.ts: the two-step lookup *)

(** [device?.positionId] *)
Definition positionId_of (device : option TraccarDevice) : option Z :=
  match device with
  | Some d => dev_positionId d
  | None => None
  end.

Definition getLastPositionByDevice (env : env_config) (io : collaborators)
    (deviceId : Z) : M (option NormalizedPosition) :=
  let* device := getDevice env io deviceId in
  if negb (truthy_num (positionId_of device))
  then ret None
  else getPosition env io (as_number (positionId_of device)).

(** ** Runs of the limiter: one call of [enforceRateLimit] after another *)

Record call := {
  call_admin : string;
  call_scope : string;
  call_now : Z
}.

Definition call_key (c : call) : string := rateKey (call_admin c) (call_scope c).

(** The boolean [enforceRateLimit] returns. *)
Definition admitted (env : env_config) (c : call) (w : world) : bool :=
  match (enforceRateLimit env (call_admin c) (call_scope c) (call_now c) w).1 with
  | Returns b => b
  | Throws _ => false
  end.

(** The calls in order, each with its answer, and the world they leave. *)
Fixpoint serve (env : env_config) (calls : list call) (w : world)
    : list (call * bool) * world :=
  match calls with
  | [] => ([], w)
  | c :: rest =>
    let w1 := (enforceRateLimit env (call_admin c) (call_scope c) (call_now c) w).2 in
    let (answers, w') := serve env rest w1 in
    ((c, admitted env c w) :: answers, w')
  end.

(** The readings of the calls for [key] that were answered [true], in order. *)
Definition admitted_times (key : string) (answers : list (call * bool)) : list Z :=
  List.map (fun a => call_now a.1)
    (List.filter (fun a => a.2 && String.eqb (call_key a.1) key) answers).

(** Each reading is at least [d] after the one before it. *)
Fixpoint spaced (d : Z) (times : list Z) : Prop :=
  match times with
  | a :: (b :: _) as rest => d <= b - a /\ spaced d rest
  | _ => True
  end.

(** The readings admitted for a key, after the entry the run started from. *)
Definition since (entry : option Z) (times : list Z) : list Z :=
  match entry with
  | Some l => l :: times
  | None => times
  end.

(** The caller id holds no colon, as the text of an ObjectId does. *)
Fixpoint no_colon (s : string) : bool :=
  match s with
  | EmptyString => true
  | String c rest => negb (Ascii.eqb c ":"%char) && no_colon rest
  end.

(** The provider calls among the entries of a log. *)
Definition provider_calls (evs : list event) : nat :=
  List.length (List.filter (fun ev => match ev with
                                      | EvGetDevice _ | EvGetPosition _ => true
                                      | _ => false
                                      end) evs).

(** From [w] to [w'] the ledger is untouched and the log has grown by at
    most [n] provider calls, none of them when the provider is not
    configured. *)
Definition grows (env : env_config) (n : nat) (w w' : world) : Prop :=
  lastRequestByAdmin w' = lastRequestByAdmin w /\
  exists evs,
    trace w' = (trace w ++ evs)%list /\
    (provider_calls evs <= n)%nat /\
    (configured env = false -> provider_calls evs = 0%nat).

(** The vehicles a fleet request can load. *)
Definition loadable (io : collaborators) : list CarDoc :=
  match Car_documents io with
  | Returns docs => List.filter mappedQuery docs
  | Throws _ => []
  end.

(** ** Shapes of the responses, as the pages of the admin application read them *)

(** Code, status, vehicle and position of a single-vehicle response fit together. *)
Definition car_response_shape (r : response CarTrackingPayload) : bool :=
  match status (payload r), car (payload r), position (payload r) with
  | ok, Some _, Some _ => Z.eqb (code r) 200
  | no_fix_yet, Some _, None => Z.eqb (code r) 200
  | not_mapped, Some _, None => Z.eqb (code r) 404
  | device_not_found, Some _, None => Z.eqb (code r) 404
  | car_not_found, None, None => Z.eqb (code r) 400 || Z.eqb (code r) 404
  | rate_limited, None, None => Z.eqb (code r) 429
  | traccar_not_configured, None, None => Z.eqb (code r) 503
  | traccar_error, None, None => Z.eqb (code r) 502
  | _, _, _ => false
  end.

(** An entry of a fleet response carries a position exactly when it is [ok]. *)
Definition fleet_entry_shape (entry : FleetCar) : bool :=
  match car_status entry, car_position entry with
  | ok, Some _ => true
  | no_fix_yet, None | device_not_found, None | traccar_error, None => true
  | _, _ => false
  end.

(** Code, status and list of a fleet response fit together. *)
Definition fleet_response_shape (r : response FleetTrackingPayload) : bool :=
  match fleet_status (payload r), cars (payload r) with
  | ok, entries => Z.eqb (code r) 200 && List.forallb fleet_entry_shape entries
  | rate_limited, [] => Z.eqb (code r) 429
  | traccar_not_configured, [] => Z.eqb (code r) 503
  | traccar_error, [] => Z.eqb (code r) 502
  | _, _ => false
  end.

(** ** adminGuard.ts

    [authHelper], [env.config], [helper] and the [User] model lie
    outside the file: their constants are parameters, their calls
    oracles. *)

Record Request := {
  signedCookies : gmap string string;
  headers : gmap string string
}.

(** What [decryptJWT] yields: [{ id?: string }] or nothing. *)
Record SessionData := { session_id : option string }.

(** A [User] document: the text of its [_id], its type, its blacklist flag. *)
Record UserDoc := {
  user_id : string;
  user_type : string;
  user_blacklisted : option bool;
  user_language : option string
}.

Record auth_collaborators := {
  (** [authHelper.isAdmin(req)] *)
  isAdmin : Request -> bool;
  ADMIN_AUTH_COOKIE_NAME : string;
  X_ACCESS_TOKEN : string;
  (** [authHelper.decryptJWT(token)] *)
  decryptJWT : string -> outcome (option SessionData);
  (** [bookcarsTypes.UserType.Admin] *)
  UserType_Admin : string;
  (** [new mongoose.Types.ObjectId(id).toString()] *)
  ObjectId_text : string -> string;
  (** the documents of the [User] collection, in the order a [findOne] scans them *)
  User_documents : outcome (list UserDoc)
}.

(** [{ _id: new mongoose.Types.ObjectId(id), type: Admin, blacklisted: { $ne: true } }] *)
Definition adminQuery (auth : auth_collaborators) (sid : string) (u : UserDoc) : bool :=
  String.eqb (user_id u) (ObjectId_text auth sid)
  && String.eqb (user_type u) (UserType_Admin auth)
  && negb (match user_blacklisted u with Some true => true | _ => false end).

Definition User_findOne_admin (auth : auth_collaborators) (sid : string)
    : M (option UserDoc) :=
  let* docs := lift (User_documents auth) in
  ret (List.find (adminQuery auth sid) docs).

(** The middleware either answers itself or sets [res.locals.admin] and
    calls [next()]. *)
Inductive guard_result :=
  | Denied (code : Z) (message : string)
  | Next (locals : AdminLocals).

(** [sessionData?.id] *)
Definition session_id_of (sessionData : option SessionData) : option string :=
  match sessionData with
  | Some sd => session_id sd
  | None => None
  end.

(** The token the middleware reads: the signed cookie for an admin
    request, else the header. *)
Definition guardToken (auth : auth_collaborators) (req : Request) : option string :=
  let token := if isAdmin auth req
               then signedCookies req !! ADMIN_AUTH_COOKIE_NAME auth
               else None in
  if negb (truthy_str token) then headers req !! X_ACCESS_TOKEN auth else token.

(** The body of the [try] block of [adminGuard]. *)
Definition adminGuardBody (auth : auth_collaborators) (io : collaborators)
    (req : Request) : M guard_result :=
  let token := guardToken auth req in
  if negb (truthy_str token)
  then ret (Denied 403 "Admin token required")
  else
    let* sessionData := lift (decryptJWT auth (default "" token)) in
    if negb (truthy_str (session_id_of sessionData))
       || negb (isValidObjectId io (default "" (session_id_of sessionData)))
    then ret (Denied 401 "Unauthorized")
    else
      let* admin := User_findOne_admin auth (default "" (session_id_of sessionData)) in
      match admin with
      | None => ret (Denied 403 "Forbidden")
      | Some a => ret (Next {| id := Some (user_id a) |})
      end.

Definition adminGuard (auth : auth_collaborators) (io : collaborators)
    (req : Request) : M guard_result :=
  try_catch (adminGuardBody auth io req)
    (fun err =>
       run tell (EvLogError err) in
       ret (Denied 401 "Unauthorized")).

(** ** The routes: [routes.route(...).get(adminGuard, handler)] *)

Inductive routed (P : Type) :=
  | Refused (code : Z) (message : string)
  | Handled (r : response P).
Arguments Refused {P} code message.
Arguments Handled {P} r.

Definition guardedRoute {P : Type} (auth : auth_collaborators) (io : collaborators)
    (req : Request) (handler : option AdminLocals -> M (response P)) : M (routed P) :=
  let* g := adminGuard auth io req in
  match g with
  | Denied c m => ret (Refused c m)
  | Next locals =>
    let* r := handler (Some locals) in
    ret (Handled r)
  end.

(** [GET /api/admin/cars/:carId/tracking] *)
Definition carTrackingRoute (env : env_config) (io : collaborators)
    (auth : auth_collaborators) (req : Request) (carId : string) (now : Z)
    : M (routed CarTrackingPayload) :=
  guardedRoute auth io req (fun admin => getCarTracking env io carId admin now).

(** [GET /api/admin/fleet/tracking] *)
Definition fleetTrackingRoute (env : env_config) (io : collaborators)
    (auth : auth_collaborators) (req : Request) (now : Z)
    : M (routed FleetTrackingPayload) :=
  guardedRoute auth io req (fun admin => getFleetTracking env io admin now).

(** ** The fleet page of the admin application *)

Definition statusClass (st : TrackingStatus) : string :=
  match st with
  | ok => "status-ok"
  | no_fix_yet | device_not_found => "status-warn"
  | _ => "status-error"
  end.

(** [c.status === 'ok'] *)
Definition statusIsOk (c : FleetCar) : bool :=
  match car_status c with
  | ok => true
  | _ => false
  end.

(** [fleet?.cars || []] *)
Definition fleetCars (fleet : option FleetTrackingPayload) : list FleetCar :=
  match fleet with
  | Some f => cars f
  | None => []
  end.

(** [c.status === 'ok' && c.position] *)
Definition hasMarker (c : FleetCar) : bool :=
  match car_status c, car_position c with
  | ok, Some _ => true
  | _, _ => false
  end.

(** The [positions] of the page: [[c.position!.lat, c.position!.lon]] of
    the entries with a marker. The assertion [!] holds after the filter. *)
Definition fleetPositions (fleet : option FleetTrackingPayload) : list (float * float) :=
  List.map (fun c => match car_position c with
                     | Some p => (lat p, lon p)
                     | None => (0%float, 0%float)
                     end)
    (List.filter hasMarker (fleetCars fleet)).

(** The [status] of the page: [traccar_error] when some entry is neither
    [ok] nor [no_fix_yet]. *)
Definition fleetPageStatus (fleet : option FleetTrackingPayload) : TrackingStatus :=
  if List.existsb (fun c => match car_status c with
                            | ok | no_fix_yet => false
                            | _ => true
                            end) (fleetCars fleet)
  then traccar_error
  else ok.

(** ** The polling of the two pages *)

(** [if (data?.pollAfterSeconds) { setPollSeconds(data.pollAfterSeconds) }] *)
Definition nextPollSeconds (pollAfterSeconds : option Z) (pollSeconds : Z) : Z :=
  if truthy_num pollAfterSeconds then as_number pollAfterSeconds else pollSeconds.

(** The delay of the timer: [Math.max(pollSeconds, 5) * 1000] *)
Definition pollDelayMs (pollSeconds : Z) : Z := Z.max pollSeconds 5 * 1000.

(** ** More of the demo deployment: the users and two requests *)

Definition demo_admin_id : string := "65f0c0ffee0000000000a001".

Definition demo_users : list UserDoc :=
  [ {| user_id := "65f0c0ffee0000000000a002"; user_type := "supplier";
       user_blacklisted := Some false; user_language := Some "en" |};
    {| user_id := demo_admin_id; user_type := "admin";
       user_blacklisted := None; user_language := Some "en" |} ].

Definition demo_auth : auth_collaborators :=
  {| isAdmin := fun _ => true;
     ADMIN_AUTH_COOKIE_NAME := "bc-x-access-token-admin";
     X_ACCESS_TOKEN := "x-access-token";
     decryptJWT := fun token =>
       if String.eqb token "token-of-admin"
       then Returns (Some {| session_id := Some demo_admin_id |})
       else Throws (PlainError "JWSSignatureVerificationFailed");
     UserType_Admin := "admin";
     ObjectId_text := fun s => s;
     User_documents := Returns demo_users |}.

Definition demo_request : Request :=
  {| signedCookies := {[ "bc-x-access-token-admin" := "token-of-admin" ]};
     headers := ∅ |}.

Definition demo_admin : option AdminLocals := Some {| id := Some demo_admin_id |}.

Definition other_admin : option AdminLocals :=
  Some {| id := Some "65f0c0ffee0000000000a003" |}.

(** A run on the demo deployment: the fleet is asked for at 1000, 3000
    and 7000, and a vehicle at 2000. *)
Definition demo_run : list call :=
  [ {| call_admin := "admin"; call_scope := "fleet"; call_now := 1000 |};
    {| call_admin := "admin"; call_scope := "car-" +:+ doc_id car_v1; call_now := 2000 |};
    {| call_admin := "admin"; call_scope := "fleet"; call_now := 3000 |};
    {| call_admin := "admin"; call_scope := "fleet"; call_now := 7000 |} ].

(** * Properties *)

Local Open Scope list_scope.

(** ** Truthiness *)

Lemma truthy_num_Some (n : Z) : truthy_num (Some n) = true <-> n <> 0.
Proof.
  unfold truthy_num. rewrite negb_true_iff, Z.eqb_neq. tauto.
Qed.

Lemma truthy_num_false (v : option Z) :
  truthy_num v = false <-> v = None \/ v = Some 0.
Proof.
  destruct v as [n|]; simpl.
  - rewrite negb_false_iff, Z.eqb_eq. split.
    + intros ->. now right.
    + intros [H|H]; congruence.
  - split; [now left | reflexivity].
Qed.

Lemma truthy_str_Some (s : string) : truthy_str (Some s) = true <-> s <> "".
Proof.
  unfold truthy_str. rewrite negb_true_iff. destruct (String.eqb_spec s ""); split; congruence.
Qed.

Lemma truthy_str_false (v : option string) :
  truthy_str v = false <-> v = None \/ v = Some "".
Proof.
  destruct v as [s|]; simpl.
  - rewrite negb_false_iff. destruct (String.eqb_spec s ""); split; try congruence.
    + intros _. right. congruence.
    + intros [H|H]; congruence.
  - split; [now left | reflexivity].
Qed.

(** ** Position normalizer *)

Lemma or_str_left (a b : option string) : truthy_str a = true -> or_str a b = a.
Proof. unfold or_str. now intros ->. Qed.

Lemma or_str_right (a b : option string) : truthy_str a = false -> or_str a b = b.
Proof. unfold or_str. now intros ->. Qed.

(** C6. The normalized position copies latitude, longitude, speed, course
    and address, and carries one timestamp, chosen in order among the
    times that are not empty: the fix time when present and not empty,
    else the device time when present and not empty, else the server
    time. So a record without [fixTime] and with a non-empty
    [deviceTime] resolves to [deviceTime], and one without both resolves
    to [serverTime]. *)
Theorem normalizePosition_resolves (p : TraccarPosition) :
  lat (normalizePosition p) = latitude p /\
  lon (normalizePosition p) = longitude p /\
  speed (normalizePosition p) = pos_speed p /\
  course (normalizePosition p) = pos_course p /\
  address (normalizePosition p) = pos_address p /\
  (forall t, pos_fixTime p = Some t -> t <> "" ->
     fixTime (normalizePosition p) = Some t) /\
  (forall d, pos_fixTime p = None \/ pos_fixTime p = Some "" ->
     pos_deviceTime p = Some d -> d <> "" ->
     fixTime (normalizePosition p) = Some d) /\
  (pos_fixTime p = None \/ pos_fixTime p = Some "" ->
   pos_deviceTime p = None \/ pos_deviceTime p = Some "" ->
     fixTime (normalizePosition p) = pos_serverTime p).
Proof.
  repeat split; try reflexivity; simpl.
  - intros t Hf Ht. rewrite Hf.
    rewrite (or_str_left (Some t)) by now apply truthy_str_Some.
    apply or_str_left. now apply truthy_str_Some.
  - intros d Hf Hd Hne. apply truthy_str_false in Hf.
    rewrite (or_str_right _ _ Hf), Hd.
    apply or_str_left. now apply truthy_str_Some.
  - intros Hf Hd. apply truthy_str_false in Hf, Hd.
    rewrite (or_str_right _ _ Hf). now apply or_str_right.
Qed.

(** The wording that takes every text for a time fails on an empty
    [fixTime] and on an empty [deviceTime]. *)
Lemma timestamp_as_stated_fails_on_empty :
  fixTime (normalizePosition position_blank_fix)
  <> timestamp_as_stated position_blank_fix /\
  fixTime (normalizePosition position_blank_device)
  <> timestamp_as_stated position_blank_device.
Proof. split; vm_compute; discriminate. Qed.

(** ** Rate limiter *)

Section RateLimiter.

Variable env : env_config.

Abbreviation interval := (pollIntervalMs env).
Abbreviation limiter := (enforceRateLimit env).

Lemma pollIntervalSeconds_default :
  TRACCAR_MIN_POLL_INTERVAL env = 0 -> pollIntervalSeconds env = 5.
Proof. unfold pollIntervalSeconds. now intros ->. Qed.

Lemma pollIntervalSeconds_configured :
  TRACCAR_MIN_POLL_INTERVAL env <> 0 ->
  pollIntervalSeconds env = TRACCAR_MIN_POLL_INTERVAL env.
Proof.
  unfold pollIntervalSeconds. intros H.
  destruct (Z.eqb_spec (TRACCAR_MIN_POLL_INTERVAL env) 0); [contradiction | reflexivity].
Qed.

Lemma limiter_missing adminId scope now w :
  lastRequestByAdmin w !! rateKey adminId scope = None ->
  limiter adminId scope now w = (Returns true, recorded (rateKey adminId scope) now w).
Proof. unfold enforceRateLimit. now intros ->. Qed.

Lemma limiter_old adminId scope now w last :
  lastRequestByAdmin w !! rateKey adminId scope = Some last ->
  interval <= now - last ->
  limiter adminId scope now w = (Returns true, recorded (rateKey adminId scope) now w).
Proof.
  unfold enforceRateLimit. intros -> Hge. simpl.
  destruct (Z.ltb_spec (now - last) interval); [lia |].
  now rewrite andb_false_r.
Qed.

Lemma limiter_recent adminId scope now w last :
  lastRequestByAdmin w !! rateKey adminId scope = Some last ->
  last <> 0 ->
  now - last < interval ->
  limiter adminId scope now w = (Returns false, w).
Proof.
  unfold enforceRateLimit. intros -> Hnz Hlt. simpl.
  destruct (Z.eqb_spec last 0); [contradiction |].
  destruct (Z.ltb_spec (now - last) interval); [reflexivity | lia].
Qed.


Lemma limiter_total adminId scope now w :
  limiter adminId scope now w = (Returns true, recorded (rateKey adminId scope) now w) \/
  limiter adminId scope now w = (Returns false, w).
Proof.
  unfold enforceRateLimit.
  destruct (_ && _); [now right | now left].
Qed.

Lemma readings_nonzero_recorded key now w :
  now <> 0 -> readings_nonzero w -> readings_nonzero (recorded key now w).
Proof.
  intros Hnow Hw k t. simpl. rewrite lookup_insert.
  case_decide; [congruence | apply Hw].
Qed.

Lemma readings_nonzero_limiter adminId scope now w :
  now <> 0 -> readings_nonzero w ->
  readings_nonzero (limiter adminId scope now w).2.
Proof.
  intros Hnow Hw.
  destruct (limiter_total adminId scope now w) as [-> | ->]; simpl; [| exact Hw].
  now apply readings_nonzero_recorded.
Qed.

Lemma readings_nonzero_empty tr :
  readings_nonzero {| lastRequestByAdmin := ∅; trace := tr |}.
Proof. intros k t. simpl. now rewrite lookup_empty. Qed.

Lemma window_open_dec key now w :
  window_open env key now w \/ ~ window_open env key now w.
Proof.
  unfold window_open.
  destruct (lastRequestByAdmin w !! key) as [last|]; [| now left; left].
  destruct (Z_le_gt_dec interval (now - last)).
  - left. right. now exists last.
  - right. intros [H | (l & Hl & Hge)]; [discriminate |].
    injection Hl as <-. lia.
Qed.

End RateLimiter.

Lemma append_inj_r (a s1 s2 : string) : a +:+ s1 = a +:+ s2 -> s1 = s2.
Proof.
  induction a as [| c a IH]; simpl; [tauto |].
  intros H. injection H as H. now apply IH.
Qed.

Lemma rateKey_inj (adminId s1 s2 : string) :
  rateKey adminId s1 = rateKey adminId s2 -> s1 = s2.
Proof.
  unfold rateKey. intros H.
  apply append_inj_r in H. now apply append_inj_r in H.
Qed.

Lemma scope_string_inj (sc1 sc2 : scope_of) :
  scope_string sc1 = scope_string sc2 -> sc1 = sc2.
Proof.
  destruct sc1 as [c1|], sc2 as [c2|]; simpl; intros H;
    try discriminate; [| reflexivity].
  f_equal. now apply (append_inj_r "car-").
Qed.

Section RateLimiterContract.

Variable env : env_config.

Abbreviation interval := (pollIntervalMs env).
Abbreviation limiter := (enforceRateLimit env).

(** The contract of the limiter away from the clock reading [0]. For a
    key whose entry, if any, is a nonzero reading: [enforceRateLimit]
    returns [true] and records [now] for the key exactly when the key has
    no entry or [now] minus the entry is at least the interval, and
    otherwise returns [false] and leaves the ledger as it was. Hence,
    when a request at a nonzero [t1] is admitted, a second one for the
    same key less than the interval later is rejected, and one at least
    the interval later is admitted as well. The interval is the
    configured number of seconds, 5 when none is configured. *)
Lemma enforceRateLimit_contract (adminId scope : string) (w : world) :
  lastRequestByAdmin w !! rateKey adminId scope <> Some 0 ->
  (forall now,
     (window_open env (rateKey adminId scope) now w ->
        limiter adminId scope now w
        = (Returns true, recorded (rateKey adminId scope) now w) /\
        lastRequestByAdmin (recorded (rateKey adminId scope) now w)
          !! rateKey adminId scope = Some now) /\
     (~ window_open env (rateKey adminId scope) now w ->
        limiter adminId scope now w = (Returns false, w))) /\
  (forall t1 t2,
     t1 <> 0 ->
     window_open env (rateKey adminId scope) t1 w ->
     let w1 := recorded (rateKey adminId scope) t1 w in
     limiter adminId scope t1 w = (Returns true, w1) /\
     (t2 - t1 < interval -> limiter adminId scope t2 w1 = (Returns false, w1)) /\
     (interval <= t2 - t1 ->
        limiter adminId scope t2 w1
        = (Returns true, recorded (rateKey adminId scope) t2 w1))) /\
  (TRACCAR_MIN_POLL_INTERVAL env = 0 -> interval = 5 * 1000) /\
  (TRACCAR_MIN_POLL_INTERVAL env <> 0 ->
     interval = TRACCAR_MIN_POLL_INTERVAL env * 1000).
Proof.
  intros Hnz.
  assert (Hopen : forall now, window_open env (rateKey adminId scope) now w ->
            limiter adminId scope now w
            = (Returns true, recorded (rateKey adminId scope) now w)).
  { intros now [Hnone | (last & Hlast & Hge)].
    - now apply limiter_missing.
    - now apply (limiter_old env adminId scope now w last). }
  split; [| split; [| split]].
  - intros now. split.
    + intros Ho. split; [now apply Hopen |].
      simpl. apply lookup_insert_eq.
    + intros Hclosed.
      destruct (lastRequestByAdmin w !! rateKey adminId scope) as [last|] eqn:Hlast.
      * apply (limiter_recent env adminId scope now w last); [exact Hlast | congruence |].
        destruct (Z_lt_le_dec (now - last) interval) as [Hlt | Hge]; [exact Hlt |].
        exfalso. apply Hclosed. right. now exists last.
      * exfalso. apply Hclosed. now left.
  - intros t1 t2 Ht1 Ho w1.
    assert (Hw1 : lastRequestByAdmin w1 !! rateKey adminId scope = Some t1)
      by (subst w1; simpl; apply lookup_insert_eq).
    split; [now apply Hopen |]. split.
    + intros Hlt. now apply (limiter_recent env adminId scope t2 w1 t1).
    + intros Hge. now apply (limiter_old env adminId scope t2 w1 t1).
  - intros H. unfold pollIntervalMs. now rewrite pollIntervalSeconds_default.
  - intros H. unfold pollIntervalMs. now rewrite pollIntervalSeconds_configured.
Qed.


Lemma limiter_other_key adminId s1 s2 t1 w :
  s1 <> s2 ->
  lastRequestByAdmin (limiter adminId s1 t1 w).2 !! rateKey adminId s2
  = lastRequestByAdmin w !! rateKey adminId s2.
Proof.
  intros Hne.
  destruct (limiter_total env adminId s1 t1 w) as [-> | ->]; simpl; [| reflexivity].
  apply lookup_insert_ne. intros H. now apply rateKey_inj in H.
Qed.

Lemma limiter_decision_by_entry adminId scope now w w' :
  lastRequestByAdmin w' !! rateKey adminId scope
  = lastRequestByAdmin w !! rateKey adminId scope ->
  (limiter adminId scope now w').1 = (limiter adminId scope now w).1.
Proof.
  unfold enforceRateLimit. intros ->.
  now destruct (_ && _).
Qed.

(** C7. For one caller and two distinct scopes (two vehicles, or a
    vehicle and the fleet), a request for the first leaves the ledger
    entry of the second as it was, so the decision for the second is the
    same before and after; two requests at one instant that would each be
    admitted alone are both admitted one after the other, and with no
    entry for either key they are. *)
Theorem scopes_independent (adminId : string) (sc1 sc2 : scope_of) (w : world) :
  sc1 <> sc2 ->
  (forall t1 t2,
     let w1 := (limiter adminId (scope_string sc1) t1 w).2 in
     lastRequestByAdmin w1 !! rateKey adminId (scope_string sc2)
     = lastRequestByAdmin w !! rateKey adminId (scope_string sc2) /\
     (limiter adminId (scope_string sc2) t2 w1).1
     = (limiter adminId (scope_string sc2) t2 w).1) /\
  (forall now,
     (limiter adminId (scope_string sc1) now w).1 = Returns true ->
     (limiter adminId (scope_string sc2) now w).1 = Returns true ->
     (limiter adminId (scope_string sc2) now
        (limiter adminId (scope_string sc1) now w).2).1 = Returns true) /\
  (forall now,
     lastRequestByAdmin w !! rateKey adminId (scope_string sc1) = None ->
     lastRequestByAdmin w !! rateKey adminId (scope_string sc2) = None ->
     (limiter adminId (scope_string sc1) now w).1 = Returns true /\
     (limiter adminId (scope_string sc2) now
        (limiter adminId (scope_string sc1) now w).2).1 = Returns true).
Proof.
  intros Hne.
  assert (Hs : scope_string sc1 <> scope_string sc2)
    by (intros H; now apply scope_string_inj in H).
  assert (Hkeep : forall t1 t2,
            (limiter adminId (scope_string sc2) t2
               (limiter adminId (scope_string sc1) t1 w).2).1
            = (limiter adminId (scope_string sc2) t2 w).1).
  { intros t1 t2. apply limiter_decision_by_entry. now apply limiter_other_key. }
  repeat split.
  - now apply limiter_other_key.
  - apply Hkeep.
  - intros now _ H2. now rewrite Hkeep.
  - now rewrite (limiter_missing env _ _ now w H).
  - rewrite Hkeep. now rewrite (limiter_missing env _ _ now w H0).
Qed.

End RateLimiterContract.

(** ** Provider client *)

Section ProviderClient.

Variable env : env_config.
Variable io : collaborators.

Lemma getClient_eq (w : world) :
  getClient env w
  = if configured env then (Returns tt, w)
    else (Throws (PlainError TRACCAR_NOT_CONFIGURED), w).
Proof.
  unfold getClient, configured.
  destruct (truthy_str (TRACCAR_BASE_URL env)),
           (truthy_str (TRACCAR_USER env)),
           (truthy_str (TRACCAR_PASS env)); reflexivity.
Qed.

(** What [getDevice] does, by the configuration and the provider's answer. *)
Lemma getDevice_eq (deviceId : Z) (w : world) :
  getDevice env io deviceId w
  = if configured env then
      match api_get_device io deviceId with
      | Returns data => (Returns (Some data), emit (EvGetDevice deviceId) w)
      | Throws e =>
        if is_axios_404 e then (Returns None, emit (EvGetDevice deviceId) w)
        else (Throws e, emit (EvGetDevice deviceId) w)
      end
    else (Throws (PlainError TRACCAR_NOT_CONFIGURED), w).
Proof.
  unfold getDevice, bind. rewrite getClient_eq.
  destruct (configured env); [| reflexivity].
  unfold try_catch, bind, tell, lift, ret, throw.
  destruct (api_get_device io deviceId) as [data | e]; [reflexivity |].
  now destruct (is_axios_404 e).
Qed.

(** What [getPosition] does, by the configuration and the provider's answer. *)
Lemma getPosition_eq (positionId : Z) (w : world) :
  getPosition env io positionId w
  = if configured env then
      match api_get_position io positionId with
      | Returns (Some position) =>
        (Returns (Some (normalizePosition position)), emit (EvGetPosition positionId) w)
      | Returns None => (Returns None, emit (EvGetPosition positionId) w)
      | Throws e =>
        if is_axios_404 e then (Returns None, emit (EvGetPosition positionId) w)
        else (Throws e, emit (EvGetPosition positionId) w)
      end
    else (Throws (PlainError TRACCAR_NOT_CONFIGURED), w).
Proof.
  unfold getPosition, bind. rewrite getClient_eq.
  destruct (configured env); [| reflexivity].
  unfold try_catch, bind, tell, lift, ret, throw.
  destruct (api_get_position io positionId) as [[position |] | e]; try reflexivity.
  now destruct (is_axios_404 e).
Qed.

(** A provider that is not configured is never contacted. *)
Lemma getDevice_unconfigured (deviceId : Z) (w : world) :
  configured env = false ->
  getDevice env io deviceId w = (Throws (PlainError TRACCAR_NOT_CONFIGURED), w).
Proof. intros H. now rewrite getDevice_eq, H. Qed.

Lemma sentinel_is_not_configured :
  is_not_configured (PlainError TRACCAR_NOT_CONFIGURED) = true.
Proof. reflexivity. Qed.

(** *** Device resolver *)

Abbreviation resolve := (resolveCar env io).
Abbreviation poll := (pollIntervalSeconds env).

Lemma resolveCar_unmapped (car : CarDoc) (w : world) :
  truthy_num (doc_traccarDeviceId car) = false ->
  resolve car w
  = (Returns (send 404 (carPayload env not_mapped (Some (mapCar car)) None)), w).
Proof.
  unfold resolveCar. intros ->. simpl.
  now destruct (truthy_str (doc_traccarUniqueId car)).
Qed.

Lemma resolveCar_mapped (car : CarDoc) (d : Z) (w : world) :
  doc_traccarDeviceId car = Some d -> d <> 0 ->
  resolve car w
  = bind (getDevice env io d)
      (fun device =>
         match device with
         | None => ret (send 404 (carPayload env device_not_found (Some (mapCar car)) None))
         | Some device =>
           if negb (truthy_num (dev_positionId device))
           then ret (json (carPayload env no_fix_yet (Some (mapCar car)) None))
           else
             bind (getPosition env io (as_number (dev_positionId device)))
               (fun position =>
                  match position with
                  | None => ret (json (carPayload env no_fix_yet (Some (mapCar car)) None))
                  | Some p => ret (json (carPayload env ok (Some (mapCar car)) (Some p)))
                  end)
         end) w.
Proof.
  intros Hd Hnz. unfold resolveCar. rewrite Hd.
  assert (Ht : truthy_num (Some d) = true) by now apply truthy_num_Some.
  rewrite Ht. reflexivity.
Qed.

(** C2. The resolution of a vehicle goes through its conditions in
    order and stops at the first that holds. A vehicle with no device
    id, or with device id [0], with or without a unique id, is answered
    [not_mapped] and the provider is not contacted. With the provider
    configured: a 404 on the device fetch gives [device_not_found]; a
    device with no position pointer, or with pointer [0], gives
    [no_fix_yet] with no position fetch; a 404 or an empty answer on the
    position fetch gives [no_fix_yet]; and a position that is fetched
    gives [ok] with the normalized position. All but the last carry no
    position. *)
Theorem resolveCar_order (car : CarDoc) (w : world) :
  (doc_traccarDeviceId car = None \/ doc_traccarDeviceId car = Some 0 ->
     resolve car w
     = (Returns (send 404 (carPayload env not_mapped (Some (mapCar car)) None)), w)) /\
  (forall d, doc_traccarDeviceId car = Some d -> d <> 0 -> configured env = true ->
     (forall e, api_get_device io d = Throws e -> is_axios_404 e = true ->
        resolve car w
        = (Returns (send 404 (carPayload env device_not_found (Some (mapCar car)) None)),
           emit (EvGetDevice d) w)) /\
     (forall device, api_get_device io d = Returns device ->
        (dev_positionId device = None \/ dev_positionId device = Some 0 ->
           resolve car w
           = (Returns (json (carPayload env no_fix_yet (Some (mapCar car)) None)),
              emit (EvGetDevice d) w)) /\
        (forall p, dev_positionId device = Some p -> p <> 0 ->
           (forall e, api_get_position io p = Throws e -> is_axios_404 e = true ->
              resolve car w
              = (Returns (json (carPayload env no_fix_yet (Some (mapCar car)) None)),
                 emit (EvGetPosition p) (emit (EvGetDevice d) w))) /\
           (api_get_position io p = Returns None ->
              resolve car w
              = (Returns (json (carPayload env no_fix_yet (Some (mapCar car)) None)),
                 emit (EvGetPosition p) (emit (EvGetDevice d) w))) /\
           (forall position, api_get_position io p = Returns (Some position) ->
              resolve car w
              = (Returns (json (carPayload env ok (Some (mapCar car))
                                 (Some (normalizePosition position)))),
                 emit (EvGetPosition p) (emit (EvGetDevice d) w)))))).
Proof.
  split; [intros H; apply resolveCar_unmapped; now apply truthy_num_false |].
  intros d Hd Hnz Hcfg.
  rewrite (resolveCar_mapped car d w Hd Hnz).
  unfold bind. rewrite getDevice_eq, Hcfg.
  split.
  - intros e -> ->. reflexivity.
  - intros device ->. split.
    + intros H. apply truthy_num_false in H. rewrite H. reflexivity.
    + intros p Hp Hpnz.
      assert (Ht : truthy_num (dev_positionId device) = true)
        by (rewrite Hp; now apply truthy_num_Some).
      rewrite Ht, Hp. simpl. rewrite getPosition_eq, Hcfg.
      split; [| split].
      * intros e -> ->. reflexivity.
      * intros ->. reflexivity.
      * intros position ->. reflexivity.
Qed.

End ProviderClient.

(** ** Single-vehicle endpoint *)

Section SingleVehicle.

Variable env : env_config.
Variable io : collaborators.

Abbreviation poll := (pollIntervalSeconds env).

Lemma carPayload_poll st c p : pollAfterSeconds (carPayload env st c p) = poll.
Proof. reflexivity. Qed.

(** Whatever the resolver returns carries the poll interval. *)
Lemma resolveCar_poll (car : CarDoc) (w w' : world) (r : response CarTrackingPayload) :
  resolveCar env io car w = (Returns r, w') -> pollAfterSeconds (payload r) = poll.
Proof.
  unfold resolveCar.
  destruct (negb (truthy_num (doc_traccarDeviceId car)) && _);
    [intros [= <- _]; reflexivity |].
  destruct (negb (truthy_num (doc_traccarDeviceId car)));
    [intros [= <- _]; reflexivity |].
  unfold bind. rewrite getDevice_eq.
  destruct (configured env) eqn:Hcfg; [| discriminate].
  destruct (api_get_device io _) as [device | e].
  - destruct (negb (truthy_num (dev_positionId device)));
      [intros [= <- _]; reflexivity |].
    rewrite getPosition_eq, Hcfg.
    destruct (api_get_position io _) as [[position |] | e];
      try (intros [= <- _]; reflexivity).
    destruct (is_axios_404 e); [intros [= <- _]; reflexivity | discriminate].
  - destruct (is_axios_404 e); [intros [= <- _]; reflexivity | discriminate].
Qed.

Lemma carTrackingCatch_returns (err : exn) (w : world) :
  exists r w', carTrackingCatch env err w = (Returns r, w') /\
               pollAfterSeconds (payload r) = poll.
Proof.
  unfold carTrackingCatch. destruct (is_not_configured err); eexists _, _; split; reflexivity.
Qed.

(** The guarded body of [getCarTracking] always sends a response. *)
Lemma carTracking_guarded_returns (carId : string) (w : world) :
  exists r w', try_catch (carTrackingBody env io carId) (carTrackingCatch env) w
               = (Returns r, w') /\
               pollAfterSeconds (payload r) = poll.
Proof.
  unfold try_catch.
  destruct (carTrackingBody env io carId w) as [[r | e] w1] eqn:Hbody.
  - exists r, w1. split; [reflexivity |].
    revert Hbody. unfold carTrackingBody, bind, tell, lift.
    destruct (Car_findById io carId) as [[car |] | e]; try discriminate.
    + apply resolveCar_poll.
    + intros [= <- _]. reflexivity.
  - apply carTrackingCatch_returns.
Qed.

Lemma getCarTracking_returns (carId : string) (admin : option AdminLocals)
    (now : Z) (w : world) :
  exists r w', getCarTracking env io carId admin now w = (Returns r, w') /\
               pollAfterSeconds (payload r) = poll.
Proof.
  unfold getCarTracking.
  destruct (negb (isValidObjectId io carId)); [eexists _, _; split; reflexivity |].
  unfold bind.
  destruct (limiter_total env (adminIdOf admin) ("car-" +:+ carId) now w) as [-> | ->]; simpl.
  - apply carTracking_guarded_returns.
  - eexists _, _; split; reflexivity.
Qed.

(** C5. A malformed vehicle identifier is answered [car_not_found] with
    code 400 and nothing else is done: the ledger and the log stay as
    they were. With a well-formed identifier the rate limit for the key
    of the caller and the vehicle comes next: a throttled request is
    answered [rate_limited] with code 429 and the vehicle is not looked
    up. Only an admitted request looks the vehicle up, and a missing
    record is answered [car_not_found] with code 404. *)
Theorem getCarTracking_precedence (carId : string) (admin : option AdminLocals)
    (now : Z) (w : world) :
  (isValidObjectId io carId = false ->
     getCarTracking env io carId admin now w
     = (Returns (send 400 (carPayload env car_not_found None None)), w)) /\
  (isValidObjectId io carId = true ->
     (enforceRateLimit env (adminIdOf admin) (scope_string (ScopeCar carId)) now w).1
     = Returns false ->
     getCarTracking env io carId admin now w
     = (Returns (send 429 (carPayload env rate_limited None None)), w)) /\
  (isValidObjectId io carId = true ->
     (enforceRateLimit env (adminIdOf admin) (scope_string (ScopeCar carId)) now w).1
     = Returns true ->
     Car_findById io carId = Returns None ->
     getCarTracking env io carId admin now w
     = (Returns (send 404 (carPayload env car_not_found None None)),
        emit (EvFindById carId)
          (recorded (rateKey (adminIdOf admin) (scope_string (ScopeCar carId))) now w))).
Proof.
  unfold getCarTracking, bind. simpl scope_string.
  repeat split.
  - now intros ->.
  - intros -> Hlim. simpl.
    destruct (limiter_total env (adminIdOf admin) ("car-" +:+ carId) now w) as [H | H];
      rewrite H in Hlim |- *; [discriminate | reflexivity].
  - intros -> Hlim Hfind. simpl.
    destruct (limiter_total env (adminIdOf admin) ("car-" +:+ carId) now w) as [H | H];
      rewrite H in Hlim |- *; [| discriminate]. simpl.
    unfold try_catch, carTrackingBody, bind, tell, lift. now rewrite Hfind.
Qed.

(** The single-vehicle answer for a found vehicle whose device id is [0]. *)
Lemma getCarTracking_zero_device (carId : string) (admin : option AdminLocals)
    (now : Z) (w : world) (car : CarDoc) :
  isValidObjectId io carId = true ->
  (enforceRateLimit env (adminIdOf admin) (scope_string (ScopeCar carId)) now w).1
  = Returns true ->
  Car_findById io carId = Returns (Some car) ->
  doc_traccarDeviceId car = Some 0 ->
  getCarTracking env io carId admin now w
  = (Returns (send 404 (carPayload env not_mapped (Some (mapCar car)) None)),
     emit (EvFindById carId)
       (recorded (rateKey (adminIdOf admin) (scope_string (ScopeCar carId))) now w)).
Proof.
  unfold getCarTracking, bind. simpl scope_string.
  intros -> Hlim Hfind Hzero. simpl.
  destruct (limiter_total env (adminIdOf admin) ("car-" +:+ carId) now w) as [H | H];
    rewrite H in Hlim |- *; [| discriminate]. simpl.
  unfold try_catch, carTrackingBody, bind, tell, lift. rewrite Hfind.
  rewrite resolveCar_unmapped; [reflexivity |].
  now rewrite Hzero.
Qed.

End SingleVehicle.

(** ** Fleet aggregator *)

Section Fleet.

Variable env : env_config.
Variable io : collaborators.

Abbreviation poll := (pollIntervalSeconds env).
Abbreviation raises := (raises_unconfigured env io).

(** What the [try] block of a turn does, by the configuration and the
    provider's answers. *)
Lemma fleetTurnBody_eq (car : CarDoc) (w : world) :
  fleetTurnBody env io car w
  = let d := as_number (doc_traccarDeviceId car) in
    if configured env then
      match api_get_device io d with
      | Returns device =>
        if truthy_num (dev_positionId device) then
          let p := as_number (dev_positionId device) in
          match api_get_position io p with
          | Returns (Some position) =>
            (Returns (Push (fleetCar (mapCar car) ok (Some (normalizePosition position)))),
             emit (EvGetPosition p) (emit (EvGetDevice d) w))
          | Returns None =>
            (Returns (Push (fleetCar (mapCar car) no_fix_yet None)),
             emit (EvGetPosition p) (emit (EvGetDevice d) w))
          | Throws e =>
            if is_axios_404 e
            then (Returns (Push (fleetCar (mapCar car) no_fix_yet None)),
                  emit (EvGetPosition p) (emit (EvGetDevice d) w))
            else (Throws e, emit (EvGetPosition p) (emit (EvGetDevice d) w))
          end
        else (Returns (Push (fleetCar (mapCar car) no_fix_yet None)),
              emit (EvGetDevice d) w)
      | Throws e =>
        if is_axios_404 e
        then (Returns (Push (fleetCar (mapCar car) device_not_found None)),
              emit (EvGetDevice d) w)
        else (Throws e, emit (EvGetDevice d) w)
      end
    else (Throws (PlainError TRACCAR_NOT_CONFIGURED), w).
Proof.
  unfold fleetTurnBody, bind. cbv zeta. rewrite getDevice_eq.
  destruct (configured env) eqn:Hcfg; [| reflexivity].
  destruct (api_get_device io _) as [device | e].
  - destruct (truthy_num (dev_positionId device)); simpl; [| reflexivity].
    rewrite getPosition_eq, Hcfg.
    destruct (api_get_position io _) as [[position |] | e]; try reflexivity.
    now destruct (is_axios_404 e).
  - now destruct (is_axios_404 e).
Qed.

(** The decision of a turn does not depend on the world it runs in. *)
Lemma fleetTurnBody_decision (car : CarDoc) (w : world) :
  (fleetTurnBody env io car w).1 = (fleetTurnBody env io car blank).1.
Proof.
  rewrite !fleetTurnBody_eq. cbv zeta.
  destruct (configured env); [| reflexivity].
  destruct (api_get_device io _) as [device | e].
  - destruct (truthy_num (dev_positionId device)); [| reflexivity].
    destruct (api_get_position io _) as [[position |] | e]; try reflexivity.
    now destruct (is_axios_404 e).
  - now destruct (is_axios_404 e).
Qed.

(** The [try] block only ever pushes, with one of three statuses. *)
Lemma fleetTurnBody_pushes (car : CarDoc) (w w' : world) (t : turn) :
  fleetTurnBody env io car w = (Returns t, w') ->
  exists st p, t = Push (fleetCar (mapCar car) st p) /\
               (st = ok \/ st = no_fix_yet \/ st = device_not_found).
Proof.
  rewrite fleetTurnBody_eq. cbv zeta.
  destruct (configured env); [| discriminate].
  destruct (api_get_device io _) as [device | e].
  - destruct (truthy_num (dev_positionId device)).
    + destruct (api_get_position io _) as [[position |] | e].
      * intros [= <- _]. eexists _, _. split; [reflexivity | tauto].
      * intros [= <- _]. eexists _, _. split; [reflexivity | tauto].
      * destruct (is_axios_404 e); [| discriminate].
        intros [= <- _]. eexists _, _. split; [reflexivity | tauto].
    + intros [= <- _]. eexists _, _. split; [reflexivity | tauto].
  - destruct (is_axios_404 e); [| discriminate].
    intros [= <- _]. eexists _, _. split; [reflexivity | tauto].
Qed.

(** A turn whose [try] block does not raise "unconfigured" pushes the
    vehicle's own entry. *)
Lemma fleetTurn_push (car : CarDoc) (w : world) :
  raises car = false ->
  exists entry w',
    fleetTurn env io car w = (Returns (Push entry), w') /\
    own_entry env io car entry /\
    per_vehicle_status (car_status entry) = true.
Proof.
  unfold raises_unconfigured, own_entry, fails. intros Hr.
  pose proof (fleetTurnBody_decision car w) as Hdec.
  unfold fleetTurn, try_catch.
  destruct (fleetTurnBody env io car w) as [[t | e] w1] eqn:Hbody; simpl in Hdec.
  - destruct (fleetTurnBody_pushes car w w1 t Hbody) as (st & p & -> & Hst).
    eexists _, _. split; [reflexivity |].
    rewrite <- Hdec. simpl. repeat split; try discriminate.
    destruct Hst as [-> | [-> | ->]]; reflexivity.
  - rewrite <- Hdec in Hr |- *. unfold fleetTurnCatch. rewrite Hr.
    eexists _, _. split; [reflexivity |].
    simpl. repeat split; discriminate.
Qed.

(** A turn whose [try] block raises "unconfigured" leaves the handler
    with the 503 response. *)
Lemma fleetTurn_leave (car : CarDoc) (w : world) :
  raises car = true ->
  exists w', fleetTurn env io car w = (Returns (Leave (unconfiguredResponse env)), w').
Proof.
  unfold raises_unconfigured. intros Hr.
  pose proof (fleetTurnBody_decision car w) as Hdec.
  unfold fleetTurn, try_catch.
  destruct (fleetTurnBody env io car w) as [[t | e] w1]; simpl in Hdec;
    rewrite <- Hdec in Hr; [discriminate |].
  unfold fleetTurnCatch. rewrite Hr. now eexists.
Qed.

Lemma fleetTurn_cases (car : CarDoc) (w : world) :
  (exists entry w',
      fleetTurn env io car w = (Returns (Push entry), w') /\
      per_vehicle_status (car_status entry) = true) \/
  (exists w', fleetTurn env io car w = (Returns (Leave (unconfiguredResponse env)), w')).
Proof.
  destruct (raises car) eqn:Hr.
  - right. now apply fleetTurn_leave.
  - left. destruct (fleetTurn_push car w Hr) as (entry & w' & H & _ & Hst).
    now exists entry, w'.
Qed.

(** *** The loop *)

Lemma first_raising (f : CarDoc -> bool) (l : list CarDoc) :
  (exists c, In c l /\ f c = true) ->
  exists pre c post,
    l = pre ++ c :: post /\ f c = true /\ (forall x, In x pre -> f x = false).
Proof.
  induction l as [| a l IH]; intros (c & Hin & Hc); [destruct Hin |].
  destruct (f a) eqn:Ha.
  - exists [], a, l. repeat split; [exact Ha | intros x []].
  - destruct Hin as [-> | Hin]; [congruence |].
    destruct IH as (pre & c' & post & -> & Hc' & Hpre); [now exists c |].
    exists (a :: pre), c', post. repeat split; [exact Hc' |].
    intros x [<- | Hx]; [exact Ha | now apply Hpre].
Qed.

(** The loop always sends a response; its poll interval is the
    configured one, and an invariant of the entries pushed so far holds
    of the entries it sends. *)
Lemma fleetLoop_returns (P : FleetCar -> Prop) (loaded : list CarDoc) :
  (forall entry, per_vehicle_status (car_status entry) = true -> P entry) ->
  forall (pushed : list FleetCar) (w : world),
    Forall P pushed ->
    exists r w',
      fleetLoop env io loaded pushed w = (Returns r, w') /\
      fleet_pollAfterSeconds (payload r) = poll /\
      Forall P (cars (payload r)).
Proof.
  intros HP. induction loaded as [| car rest IH]; intros pushed w Hpushed; simpl.
  - eexists _, _. split; [reflexivity |]. split; [reflexivity | exact Hpushed].
  - unfold bind.
    destruct (fleetTurn_cases car w) as [(entry & w1 & -> & Hst) | (w1 & ->)].
    + apply IH. apply Forall_app. split; [exact Hpushed |].
      constructor; [now apply HP | constructor].
    + eexists _, _. split; [reflexivity |]. split; [reflexivity | constructor].
Qed.

(** With no turn raising "unconfigured" the loop runs to its end and
    sends [ok] with one entry per vehicle, in the order of the vehicles. *)
Lemma fleetLoop_completes (loaded : list CarDoc) :
  (forall car, In car loaded -> raises car = false) ->
  forall (pushed : list FleetCar) (w : world),
    exists entries w',
      fleetLoop env io loaded pushed w
      = (Returns (json (fleetPayload env ok (pushed ++ entries))), w') /\
      Forall2 (own_entry env io) loaded entries.
Proof.
  induction loaded as [| car rest IH]; intros Hall pushed w; simpl.
  - exists [], w. rewrite app_nil_r. split; [reflexivity | constructor].
  - unfold bind.
    destruct (fleetTurn_push car w) as (entry & w1 & -> & Hown & _);
      [apply Hall; now left |].
    destruct (IH (fun c Hc => Hall c (or_intror Hc)) (pushed ++ [entry]) w1)
      as (entries & w' & -> & Hrest).
    exists (entry :: entries), w'. split.
    + now rewrite <- app_assoc.
    + now constructor.
Qed.

(** The first turn that raises "unconfigured" ends the request: the
    vehicles after it are not processed. *)
Lemma fleetLoop_aborts (pre : list CarDoc) (car : CarDoc) (post : list CarDoc) :
  (forall c, In c pre -> raises c = false) ->
  raises car = true ->
  forall (pushed : list FleetCar) (w : world),
    fleetLoop env io (pre ++ car :: post) pushed w
    = (Returns (unconfiguredResponse env),
       (fleetLoop env io (pre ++ [car]) pushed w).2).
Proof.
  intros Hpre Hcar. induction pre as [| c pre IH]; intros pushed w; simpl.
  - unfold bind. destruct (fleetTurn_leave car w Hcar) as (w1 & ->). reflexivity.
  - unfold bind.
    destruct (fleetTurn_push c w) as (entry & w1 & -> & _);
      [apply Hpre; now left |].
    apply IH. intros x Hx. apply Hpre. now right.
Qed.

(** With a configured provider and no turn raising "unconfigured", the
    log gains a device fetch for every loaded vehicle. *)
Lemma fleetTurn_trace (car : CarDoc) (w : world) :
  configured env = true ->
  exists evs,
    trace (fleetTurn env io car w).2
    = trace w ++ EvGetDevice (as_number (doc_traccarDeviceId car)) :: evs.
Proof.
  intros Hcfg. unfold fleetTurn, try_catch. rewrite fleetTurnBody_eq, Hcfg. cbv zeta.
  destruct (api_get_device io _) as [device | e].
  - destruct (truthy_num (dev_positionId device)); [| now exists []].
    destruct (api_get_position io _) as [[position |] | e]; simpl;
      try (rewrite <- app_assoc; now eexists).
    destruct (is_axios_404 e); simpl; [rewrite <- app_assoc; now eexists |].
    unfold fleetTurnCatch. destruct (is_not_configured e); simpl;
      rewrite <- ?app_assoc; now eexists.
  - destruct (is_axios_404 e); simpl; [now exists [] |].
    unfold fleetTurnCatch. destruct (is_not_configured e); simpl;
      rewrite <- ?app_assoc; now eexists.
Qed.

Lemma fleetLoop_trace (loaded : list CarDoc) :
  configured env = true ->
  (forall car, In car loaded -> raises car = false) ->
  forall (pushed : list FleetCar) (w : world),
    exists evs,
      trace (fleetLoop env io loaded pushed w).2 = trace w ++ evs /\
      forall car, In car loaded ->
        In (EvGetDevice (as_number (doc_traccarDeviceId car))) evs.
Proof.
  intros Hcfg. induction loaded as [| car rest IH]; intros Hall pushed w; simpl.
  - exists []. rewrite app_nil_r. split; [reflexivity | intros c []].
  - unfold bind.
    destruct (fleetTurn_trace car w Hcfg) as (evs1 & Ht1).
    destruct (fleetTurn_push car w) as (entry & w1 & Hturn & _);
      [apply Hall; now left |].
    rewrite Hturn in Ht1 |- *. simpl in Ht1.
    destruct (IH (fun c Hc => Hall c (or_intror Hc)) (pushed ++ [entry]) w1)
      as (evs2 & Ht2 & Hin).
    exists ((EvGetDevice (as_number (doc_traccarDeviceId car)) :: evs1) ++ evs2).
    split.
    + rewrite Ht2, Ht1. now rewrite <- app_assoc.
    + intros c [<- | Hc].
      * apply in_or_app. left. now left.
      * apply in_or_app. right. now apply Hin.
Qed.

End Fleet.

(** ** Fleet endpoint *)

Section FleetEndpoint.

Variable env : env_config.
Variable io : collaborators.

Abbreviation poll := (pollIntervalSeconds env).
Abbreviation raises := (raises_unconfigured env io).
Abbreviation fleetKey admin := (rateKey (adminIdOf admin) (scope_string ScopeFleet)).

(** An admitted request whose query succeeds is the loop over the
    mapped vehicles, run after the ledger update and the query. *)
Lemma getFleetTracking_loop (admin : option AdminLocals) (now : Z) (w : world)
    (docs : list CarDoc) :
  (enforceRateLimit env (adminIdOf admin) (scope_string ScopeFleet) now w).1
  = Returns true ->
  Car_documents io = Returns docs ->
  getFleetTracking env io admin now w
  = fleetLoop env io (List.filter mappedQuery docs) []
      (emit EvFindMapped (recorded (fleetKey admin) now w)).
Proof.
  unfold getFleetTracking, bind. simpl scope_string. intros Hlim Hdocs.
  destruct (limiter_total env (adminIdOf admin) "fleet" now w) as [H | H];
    rewrite H in Hlim |- *; [| discriminate]. simpl.
  unfold try_catch, Car_find_mapped, bind, tell, lift, ret. rewrite Hdocs.
  destruct (fleetLoop_returns env io (fun _ => True) (List.filter mappedQuery docs)
              (fun _ _ => I) [] (emit EvFindMapped (recorded (fleetKey admin) now w))
              (List.Forall_nil _)) as (r & w' & Hloop & _).
  simpl scope_string in Hloop. now rewrite Hloop.
Qed.

Lemma fleetCatch_returns (err : exn) (w : world) :
  exists r w', fleetCatch env err w = (Returns r, w') /\
               fleet_pollAfterSeconds (payload r) = poll /\
               cars (payload r) = [].
Proof.
  unfold fleetCatch. destruct (is_not_configured err);
    eexists _, _; split; try reflexivity; split; reflexivity.
Qed.

(** The fleet handler always sends a response; it carries the poll
    interval, and its entries have per-vehicle statuses only. *)
Lemma getFleetTracking_returns (P : FleetCar -> Prop) :
  (forall entry, per_vehicle_status (car_status entry) = true -> P entry) ->
  forall (admin : option AdminLocals) (now : Z) (w : world),
    exists r w',
      getFleetTracking env io admin now w = (Returns r, w') /\
      fleet_pollAfterSeconds (payload r) = poll /\
      Forall P (cars (payload r)).
Proof.
  intros HP admin now w.
  destruct (enforceRateLimit env (adminIdOf admin) (scope_string ScopeFleet) now w).1
    as [[|] | e] eqn:Hlim.
  - destruct (Car_documents io) as [docs | e] eqn:Hdocs.
    + rewrite (getFleetTracking_loop admin now w docs Hlim Hdocs).
      now apply fleetLoop_returns.
    + revert Hlim. unfold getFleetTracking, bind. simpl scope_string.
      destruct (limiter_total env (adminIdOf admin) "fleet" now w) as [H | H];
        rewrite H; [intros _ | discriminate]. simpl.
      unfold try_catch, Car_find_mapped, bind, tell, lift. rewrite Hdocs.
      destruct (fleetCatch_returns e
                  (emit EvFindMapped (recorded (rateKey (adminIdOf admin) "fleet") now w)))
        as (r & w' & -> & Hpoll & Hcars).
      exists r, w'. rewrite Hcars. repeat split; [exact Hpoll | constructor].
  - revert Hlim. unfold getFleetTracking, bind. simpl scope_string.
    destruct (limiter_total env (adminIdOf admin) "fleet" now w) as [H | H];
      rewrite H; [discriminate | intros _]. simpl.
    eexists _, _. repeat split. constructor.
  - exfalso. revert Hlim. simpl scope_string.
    destruct (limiter_total env (adminIdOf admin) "fleet" now w) as [H | H];
      rewrite H; discriminate.
Qed.



End FleetEndpoint.

Section Endpoints.

Variable env : env_config.
Variable io : collaborators.

Abbreviation raises := (raises_unconfigured env io).
Abbreviation fleetKey admin := (rateKey (adminIdOf admin) (scope_string ScopeFleet)).
Abbreviation admittedFleet admin now w :=
  ((enforceRateLimit env (adminIdOf admin) (scope_string ScopeFleet) now w).1
   = Returns true).


(** C4. When the request is admitted, the mapped vehicles are loaded and
    the resolution of some vehicle raises "provider unconfigured", the
    response is [traccar_not_configured] with code 503 and an empty
    vehicle list, however many vehicles are mapped and however many were
    processed before. The request ends at the first such vehicle: the
    world it leaves is the one the loop over the vehicles up to that one
    leaves. *)
Theorem fleet_unconfigured_aborts (admin : option AdminLocals) (now : Z) (w : world)
    (docs : list CarDoc) :
  admittedFleet admin now w ->
  Car_documents io = Returns docs ->
  (exists car, In car (List.filter mappedQuery docs) /\ raises car = true) ->
  (getFleetTracking env io admin now w).1
  = Returns (send 503 (fleetPayload env traccar_not_configured [])) /\
  exists pre car post,
    List.filter mappedQuery docs = pre ++ car :: post /\
    raises car = true /\
    (forall c, In c pre -> raises c = false) /\
    (getFleetTracking env io admin now w).2
    = (fleetLoop env io (pre ++ [car]) []
         (emit EvFindMapped (recorded (fleetKey admin) now w))).2.
Proof.
  intros Hlim Hdocs Hex.
  rewrite (getFleetTracking_loop env io admin now w docs Hlim Hdocs).
  destruct (first_raising raises _ Hex) as (pre & car & post & Heq & Hcar & Hpre).
  rewrite Heq, (fleetLoop_aborts env io pre car post Hpre Hcar).
  split; [reflexivity |].
  exists pre, car, post. repeat split; assumption.
Qed.


(** C10. Every entry of a fleet response has one of the statuses [ok],
    [no_fix_yet], [device_not_found], [traccar_error]; none has
    [not_mapped], [car_not_found], [rate_limited] or
    [traccar_not_configured]. *)
Theorem fleet_entry_statuses (admin : option AdminLocals) (now : Z) (w : world) :
  exists r w',
    getFleetTracking env io admin now w = (Returns r, w') /\
    Forall (fun entry =>
              (car_status entry = ok \/ car_status entry = no_fix_yet \/
               car_status entry = device_not_found \/ car_status entry = traccar_error) /\
              car_status entry <> not_mapped /\
              car_status entry <> car_not_found /\
              car_status entry <> rate_limited /\
              car_status entry <> traccar_not_configured)
           (cars (payload r)).
Proof.
  destruct (getFleetTracking_returns env io
              (fun entry =>
                 (car_status entry = ok \/ car_status entry = no_fix_yet \/
                  car_status entry = device_not_found \/ car_status entry = traccar_error) /\
                 car_status entry <> not_mapped /\
                 car_status entry <> car_not_found /\
                 car_status entry <> rate_limited /\
                 car_status entry <> traccar_not_configured)) with (admin := admin)
      (now := now) (w := w) as (r & w' & H & _ & Hall).
  - intros entry. destruct (car_status entry); simpl; try discriminate;
      intros _; repeat split; try discriminate; tauto.
  - now exists r, w'.
Qed.

(** C9. Take a vehicle whose device id is the number [0]. The
    single-vehicle endpoint, once the request is admitted and the vehicle
    found, answers [not_mapped] with code 404 and logs the lookup only:
    the provider is not contacted. The query of the fleet endpoint
    selects the vehicle, and a fleet request that runs to its end with a
    configured provider has an entry for it and fetches device [0] from
    the provider. *)
Theorem zero_device_id_disagreement (car : CarDoc) :
  doc_traccarDeviceId car = Some 0 ->
  (forall (carId : string) (admin : option AdminLocals) (now : Z) (w : world),
     isValidObjectId io carId = true ->
     (enforceRateLimit env (adminIdOf admin) (scope_string (ScopeCar carId)) now w).1
     = Returns true ->
     Car_findById io carId = Returns (Some car) ->
     getCarTracking env io carId admin now w
     = (Returns (send 404 (carPayload env not_mapped (Some (mapCar car)) None)),
        emit (EvFindById carId)
          (recorded (rateKey (adminIdOf admin) (scope_string (ScopeCar carId))) now w))) /\
  mappedQuery car = true /\
  (forall (admin : option AdminLocals) (now : Z) (w : world) (docs : list CarDoc),
     configured env = true ->
     admittedFleet admin now w ->
     Car_documents io = Returns docs ->
     In car docs ->
     (forall c, In c (List.filter mappedQuery docs) -> raises c = false) ->
     exists entries w' evs,
       getFleetTracking env io admin now w
       = (Returns (send 200 (fleetPayload env ok entries)), w') /\
       In (mapCar car) (map fleet_car entries) /\
       trace w' = trace w ++ EvFindMapped :: evs /\
       In (EvGetDevice 0) evs).
Proof.
  intros Hzero. split; [| split].
  - intros carId admin now w Hvalid Hlim Hfind.
    now apply getCarTracking_zero_device.
  - unfold mappedQuery. now rewrite Hzero.
  - intros admin now w docs Hcfg Hlim Hdocs Hin Hall.
    assert (Hsel : In car (List.filter mappedQuery docs)).
    { apply filter_In. split; [exact Hin |]. unfold mappedQuery. now rewrite Hzero. }
    pose proof (getFleetTracking_loop env io admin now w docs Hlim Hdocs) as Hrun.
    destruct (fleetLoop_completes env io (List.filter mappedQuery docs) Hall []
                (emit EvFindMapped (recorded (fleetKey admin) now w)))
      as (entries & w' & Hloop & Hown).
    destruct (fleetLoop_trace env io (List.filter mappedQuery docs) Hcfg Hall []
                (emit EvFindMapped (recorded (fleetKey admin) now w)))
      as (evs & Htrace & Hev).
    rewrite Hloop in Htrace. simpl in Htrace.
    exists entries, w', evs. rewrite Hrun. split; [exact Hloop |]. split; [| split].
    + assert (Hmap : map fleet_car entries = map mapCar (List.filter mappedQuery docs)).
      { clear -Hown. induction Hown as [| c e cs es Hce _ IH]; [reflexivity |].
        simpl. f_equal; [apply Hce | exact IH]. }
      rewrite Hmap. now apply in_map.
    + rewrite Htrace. now rewrite <- app_assoc.
    + specialize (Hev car Hsel). now rewrite Hzero in Hev.
Qed.

End Endpoints.

(** ** Runs on the demo deployment *)

(** Vehicle V1 has device 42, whose last position is 900. *)
Example demo_single_vehicle_ok :
  (getCarTracking demo_env (demo_io demo_docs) (doc_id car_v1) None 1000 blank).1
  = Returns (send 200
      {| status := ok;
         car := Some (mapCar car_v1);
         position := Some {| lat := 51.5%float; lon := (-0.12)%float;
                             speed := Some 10%float; course := None;
                             fixTime := Some "2024-05-01T10:00:00.000+00:00";
                             address := None |};
         pollAfterSeconds := 5 |}).
Proof. vm_compute. reflexivity. Qed.

Example demo_fleet_statuses :
  match (getFleetTracking demo_env (demo_io demo_docs) None 1000 blank).1 with
  | Returns r =>
    (code r, fleet_status (payload r), map car_status (cars (payload r)))
    = (200, ok, [ok; traccar_error; device_not_found])
  | Throws _ => False
  end.
Proof. vm_compute. reflexivity. Qed.

(** Each of the four per-vehicle statuses occurs. *)
Example demo_fleet_four_statuses :
  match (getFleetTracking demo_env (demo_io [car_new; car_gone; car_v1; car_down])
           None 1000 blank).1 with
  | Returns r =>
    map car_status (cars (payload r)) = [no_fix_yet; device_not_found; ok; traccar_error]
  | Throws _ => False
  end.
Proof. vm_compute. reflexivity. Qed.

(** A second request inside the window is turned away before the lookup. *)
Example demo_second_request_throttled :
  (getCarTracking demo_env (demo_io demo_docs) (doc_id car_v1) None 3000
     (getCarTracking demo_env (demo_io demo_docs) (doc_id car_v1) None 1000 blank).2).1
  = Returns (send 429 {| status := rate_limited; car := None; position := None;
                         pollAfterSeconds := 5 |}).
Proof. vm_compute. reflexivity. Qed.

(** With the clock at [0] for the first request, the second one, 1000 ms
    later, is served instead of throttled. *)
Example demo_zero_clock_not_throttled :
  match (getFleetTracking demo_env (demo_io demo_docs) None 1000
           (getFleetTracking demo_env (demo_io demo_docs) None 0 blank).2).1 with
  | Returns r => (code r, fleet_status (payload r)) = (200, ok)
  | Throws _ => False
  end.
Proof. vm_compute. reflexivity. Qed.

Example demo_fleet_unconfigured :
  (getFleetTracking unset_env (demo_io demo_docs) None 1000 blank).1
  = Returns (send 503 {| fleet_status := traccar_not_configured;
                         fleet_pollAfterSeconds := 5;
                         cars := [] |}).
Proof. vm_compute. reflexivity. Qed.

(** ** The statements at work on the demo deployment *)

Lemma enforceRateLimit_contract_demo :
  lastRequestByAdmin blank !! rateKey "admin" "fleet" <> Some 0 /\
  enforceRateLimit demo_env "admin" "fleet" 1000 blank
  = (Returns true, recorded (rateKey "admin" "fleet") 1000 blank) /\
  enforceRateLimit demo_env "admin" "fleet" 3000
    (recorded (rateKey "admin" "fleet") 1000 blank)
  = (Returns false, recorded (rateKey "admin" "fleet") 1000 blank) /\
  enforceRateLimit demo_env "admin" "fleet" 6000
    (recorded (rateKey "admin" "fleet") 1000 blank)
  = (Returns true,
     recorded (rateKey "admin" "fleet") 6000
       (recorded (rateKey "admin" "fleet") 1000 blank)).
Proof.
  assert (H0 : lastRequestByAdmin blank !! rateKey "admin" "fleet" <> Some 0)
    by (vm_compute; discriminate).
  split; [exact H0 |].
  destruct (enforceRateLimit_contract demo_env "admin" "fleet" blank H0)
    as (_ & Htwo & _).
  assert (H1 : (1000 : Z) <> 0) by discriminate.
  assert (Hopen : window_open demo_env (rateKey "admin" "fleet") 1000 blank)
    by (left; reflexivity).
  destruct (Htwo 1000 3000 H1 Hopen) as (Hfirst & Hsoon & _).
  destruct (Htwo 1000 6000 H1 Hopen) as (_ & _ & Hlater).
  split; [exact Hfirst |]. split.
  - apply Hsoon. reflexivity.
  - apply Hlater. vm_compute. discriminate.
Qed.

Lemma scopes_independent_witness :
  ScopeCar (doc_id car_v1) <> ScopeFleet /\
  (enforceRateLimit demo_env "admin" (scope_string (ScopeCar (doc_id car_v1))) 1000 blank).1
  = Returns true /\
  (enforceRateLimit demo_env "admin" (scope_string ScopeFleet) 1000
     (enforceRateLimit demo_env "admin" (scope_string (ScopeCar (doc_id car_v1)))
        1000 blank).2).1
  = Returns true.
Proof.
  assert (Hne : ScopeCar (doc_id car_v1) <> ScopeFleet) by discriminate.
  split; [exact Hne |].
  destruct (scopes_independent demo_env "admin" (ScopeCar (doc_id car_v1)) ScopeFleet
              blank Hne) as (_ & _ & Hfresh).
  apply (Hfresh 1000); reflexivity.
Defined.

Lemma normalizePosition_resolves_witness :
  pos_fixTime position_late = None /\
  fixTime (normalizePosition position_late) = Some "2024-05-01T10:00:01.000+00:00" /\
  fixTime (normalizePosition position_900) = Some "2024-05-01T10:00:00.000+00:00".
Proof.
  destruct (normalizePosition_resolves position_late)
    as (_ & _ & _ & _ & _ & _ & Hdev & _).
  destruct (normalizePosition_resolves position_900)
    as (_ & _ & _ & _ & _ & Hfix & _).
  split; [reflexivity |]. split.
  - apply Hdev; [left; reflexivity | reflexivity | discriminate].
  - apply Hfix; [reflexivity | discriminate].
Defined.

Lemma resolveCar_order_witness :
  resolveCar demo_env (demo_io demo_docs) car_v1 blank
  = (Returns (json (carPayload demo_env ok (Some (mapCar car_v1))
                      (Some (normalizePosition position_900)))),
     emit (EvGetPosition 900) (emit (EvGetDevice 42) blank)) /\
  resolveCar demo_env (demo_io demo_docs) car_gone blank
  = (Returns (send 404 (carPayload demo_env device_not_found (Some (mapCar car_gone)) None)),
     emit (EvGetDevice 43) blank) /\
  resolveCar demo_env (demo_io demo_docs) car_new blank
  = (Returns (json (carPayload demo_env no_fix_yet (Some (mapCar car_new)) None)),
     emit (EvGetDevice 45) blank) /\
  resolveCar demo_env (demo_io demo_docs) car_plain blank
  = (Returns (send 404 (carPayload demo_env not_mapped (Some (mapCar car_plain)) None)),
     blank) /\
  resolveCar demo_env (demo_io demo_docs) car_zero blank
  = (Returns (send 404 (carPayload demo_env not_mapped (Some (mapCar car_zero)) None)),
     blank).
Proof.
  destruct (resolveCar_order demo_env (demo_io demo_docs) car_v1 blank) as [_ Hv1].
  destruct (Hv1 42 eq_refl ltac:(discriminate) eq_refl) as [_ Hdev].
  destruct (Hdev _ eq_refl) as [_ Hptr].
  destruct (Hptr 900 eq_refl ltac:(discriminate)) as (_ & _ & Hok).
  destruct (resolveCar_order demo_env (demo_io demo_docs) car_gone blank) as [_ Hgone].
  destruct (Hgone 43 eq_refl ltac:(discriminate) eq_refl) as [H404 _].
  destruct (resolveCar_order demo_env (demo_io demo_docs) car_new blank) as [_ Hnew].
  destruct (Hnew 45 eq_refl ltac:(discriminate) eq_refl) as [_ Hnewdev].
  destruct (Hnewdev _ eq_refl) as [Hnofix _].
  destruct (resolveCar_order demo_env (demo_io demo_docs) car_plain blank) as [Hplain _].
  destruct (resolveCar_order demo_env (demo_io demo_docs) car_zero blank) as [Hzero _].
  split; [exact (Hok position_900 eq_refl) |].
  split; [exact (H404 not_found_404 eq_refl eq_refl) |].
  split; [exact (Hnofix (or_introl eq_refl)) |].
  split; [exact (Hplain (or_introl eq_refl)) |].
  exact (Hzero (or_intror eq_refl)).
Defined.

Lemma getCarTracking_precedence_witness :
  getCarTracking demo_env (demo_io demo_docs) "v1" None 1000 blank
  = (Returns (send 400 (carPayload demo_env car_not_found None None)), blank) /\
  getCarTracking demo_env (demo_io demo_docs) (doc_id car_v1) None 2000
    (recorded (rateKey "admin" (scope_string (ScopeCar (doc_id car_v1)))) 1000 blank)
  = (Returns (send 429 (carPayload demo_env rate_limited None None)),
     recorded (rateKey "admin" (scope_string (ScopeCar (doc_id car_v1)))) 1000 blank) /\
  getCarTracking demo_env (demo_io []) (doc_id car_v1) None 1000 blank
  = (Returns (send 404 (carPayload demo_env car_not_found None None)),
     emit (EvFindById (doc_id car_v1))
       (recorded (rateKey "admin" (scope_string (ScopeCar (doc_id car_v1)))) 1000 blank)).
Proof.
  destruct (getCarTracking_precedence demo_env (demo_io demo_docs) "v1" None 1000 blank)
    as (Hbad & _).
  destruct (getCarTracking_precedence demo_env (demo_io demo_docs) (doc_id car_v1) None 2000
              (recorded (rateKey "admin" (scope_string (ScopeCar (doc_id car_v1)))) 1000 blank))
    as (_ & Hlim & _).
  destruct (getCarTracking_precedence demo_env (demo_io []) (doc_id car_v1) None 1000 blank)
    as (_ & _ & Hmiss).
  split; [exact (Hbad eq_refl) |]. split.
  - apply Hlim; reflexivity.
  - apply Hmiss; reflexivity.
Defined.


Lemma fleet_unconfigured_aborts_witness :
  (In car_v1 (List.filter mappedQuery demo_docs) /\
   raises_unconfigured unset_env (demo_io demo_docs) car_v1 = true) /\
  (getFleetTracking unset_env (demo_io demo_docs) None 1000 blank).1
  = Returns (send 503 (fleetPayload unset_env traccar_not_configured [])).
Proof.
  assert (H : In car_v1 (List.filter mappedQuery demo_docs) /\
              raises_unconfigured unset_env (demo_io demo_docs) car_v1 = true)
    by (split; [left; reflexivity | reflexivity]).
  split; [exact H |].
  apply (fleet_unconfigured_aborts unset_env (demo_io demo_docs) None 1000 blank demo_docs).
  - reflexivity.
  - reflexivity.
  - exists car_v1. exact H.
Defined.

Lemma zero_device_id_disagreement_witness :
  doc_traccarDeviceId car_zero = Some 0 /\
  getCarTracking demo_env (demo_io [car_zero; car_v1]) (doc_id car_zero) None 1000 blank
  = (Returns (send 404 (carPayload demo_env not_mapped (Some (mapCar car_zero)) None)),
     emit (EvFindById (doc_id car_zero))
       (recorded (rateKey "admin" (scope_string (ScopeCar (doc_id car_zero)))) 1000 blank)) /\
  mappedQuery car_zero = true /\
  exists entries w' evs,
    getFleetTracking demo_env (demo_io [car_zero; car_v1]) None 1000 blank
    = (Returns (send 200 (fleetPayload demo_env ok entries)), w') /\
    In (mapCar car_zero) (map fleet_car entries) /\
    trace w' = trace blank ++ EvFindMapped :: evs /\
    In (EvGetDevice 0) evs.
Proof.
  destruct (zero_device_id_disagreement demo_env (demo_io [car_zero; car_v1]) car_zero eq_refl)
    as (Hsingle & Hquery & Hfleet).
  split; [reflexivity |]. split; [| split; [exact Hquery |]].
  - apply Hsingle; reflexivity.
  - apply (Hfleet None 1000 blank [car_zero; car_v1]).
    + reflexivity.
    + reflexivity.
    + reflexivity.
    + left. reflexivity.
    + intros c [<- | [<- | []]]; reflexivity.
Defined.

(** The wording that takes the number [0] for a device id and for a
    position pointer fails. A vehicle with device id [0], which the demo
    provider does not know, is answered [not_mapped], not
    [device_not_found]. On the provider that numbers from [0] the same
    vehicle is answered [not_mapped], not [ok], and a device whose
    pointer is [0] is answered [no_fix_yet], not [ok]. *)
Lemma resolution_as_stated_fails_on_zero :
  ~ resolves_as_stated demo_env (demo_io [car_zero]) car_zero /\
  ~ resolves_as_stated demo_env zero_io car_zero /\
  ~ resolves_as_stated demo_env zero_io car_fresh.
Proof.
  split; [| split]; intros H.
  - destruct (H device_not_found None eq_refl) as (r & w' & Hrun & Hst & _).
    vm_compute in Hrun. injection Hrun as <- _. discriminate Hst.
  - destruct (H ok (Some (normalizePosition position_900)) eq_refl)
      as (r & w' & Hrun & Hst & _).
    vm_compute in Hrun. injection Hrun as <- _. discriminate Hst.
  - destruct (H ok (Some (normalizePosition position_late)) eq_refl)
      as (r & w' & Hrun & Hst & _).
    vm_compute in Hrun. injection Hrun as <- _. discriminate Hst.
Qed.

(** On the same provider the two vehicles resolve as follows. *)
Example demo_zero_numbers :
  (resolveCar demo_env zero_io car_zero blank).1
  = Returns (send 404 (carPayload demo_env not_mapped (Some (mapCar car_zero)) None)) /\
  (resolveCar demo_env zero_io car_fresh blank).1
  = Returns (send 200 (carPayload demo_env no_fix_yet (Some (mapCar car_fresh)) None)).
Proof. split; vm_compute; reflexivity. Qed.

(** * The code around the handlers: properties *)

(** ** The two-step lookup and the failures of the provider *)

Section ProviderLookup.

Variable env : env_config.
Variable io : collaborators.

(** What [getLastPositionByDevice] does, by the configuration and the
    provider's answers. *)
Lemma getLastPositionByDevice_eq (d : Z) (w : world) :
  getLastPositionByDevice env io d w
  = if configured env then
      match api_get_device io d with
      | Returns device =>
        if truthy_num (dev_positionId device)
        then getPosition env io (as_number (dev_positionId device)) (emit (EvGetDevice d) w)
        else (Returns None, emit (EvGetDevice d) w)
      | Throws e =>
        if is_axios_404 e then (Returns None, emit (EvGetDevice d) w)
        else (Throws e, emit (EvGetDevice d) w)
      end
    else (Throws (PlainError TRACCAR_NOT_CONFIGURED), w).
Proof.
  unfold getLastPositionByDevice, bind. rewrite getDevice_eq.
  destruct (configured env); [| reflexivity].
  destruct (api_get_device io d) as [device | e]; simpl.
  - now destruct (truthy_num (dev_positionId device)).
  - now destruct (is_axios_404 e).
Qed.

(** X1. For a vehicle with a nonzero device id, the resolver of the
    single-vehicle endpoint and [getLastPositionByDevice] make the same
    provider calls; the resolver's answer carries the position the
    lookup returns, it is [ok] exactly when there is one, and the
    resolver throws exactly the error the lookup throws. *)
Theorem resolver_is_last_position_lookup (vehicle : CarDoc) (d : Z) (w : world) :
  doc_traccarDeviceId vehicle = Some d -> d <> 0 ->
  match getLastPositionByDevice env io d w with
  | (Returns found, w') =>
    exists r,
      resolveCar env io vehicle w = (Returns r, w') /\
      position (payload r) = found /\
      car (payload r) = Some (mapCar vehicle) /\
      (status (payload r) = ok <-> found <> None)
  | (Throws e, w') => resolveCar env io vehicle w = (Throws e, w')
  end.
Proof.
  intros Hd Hnz. rewrite (resolveCar_mapped env io vehicle d w Hd Hnz).
  rewrite getLastPositionByDevice_eq. unfold bind. rewrite getDevice_eq.
  destruct (configured env) eqn:Hcfg; [| reflexivity].
  destruct (api_get_device io d) as [device | e].
  - destruct (truthy_num (dev_positionId device)); simpl.
    + rewrite getPosition_eq, Hcfg.
      destruct (api_get_position io _) as [[p |] | e]; simpl.
      * eexists. repeat split; try reflexivity; discriminate.
      * eexists. repeat split; try reflexivity; try discriminate. now intros [].
      * destruct (is_axios_404 e); simpl; [| reflexivity].
        eexists. repeat split; try reflexivity; try discriminate. now intros [].
    + eexists. repeat split; try reflexivity; try discriminate. now intros [].
  - destruct (is_axios_404 e); simpl; [| reflexivity].
    eexists. repeat split; try reflexivity; try discriminate. now intros [].
Qed.


End ProviderLookup.

(** ** What a request does to the ledger and to the log *)

Section Effects.

Variable env : env_config.
Variable io : collaborators.

Ltac solve_grows :=
  unfold grows; simpl; split; [reflexivity |];
  eexists; split;
  [ rewrite <- ?app_assoc; first [reflexivity | symmetry; apply app_nil_r] |];
  unfold provider_calls; simpl; split; [lia | intros; try reflexivity; congruence].

Lemma grows_refl (n : nat) (w : world) : grows env n w w.
Proof. solve_grows. Qed.

Lemma grows_trans (n m : nat) (w w1 w2 : world) :
  grows env n w w1 -> grows env m w1 w2 -> grows env (n + m) w w2.
Proof.
  intros (Hl1 & evs1 & Ht1 & Hn1 & Hc1) (Hl2 & evs2 & Ht2 & Hn2 & Hc2).
  split; [congruence |].
  exists (evs1 ++ evs2). split; [rewrite Ht2, Ht1; now rewrite app_assoc |].
  unfold provider_calls in *. rewrite List.filter_app, List.length_app.
  split; [lia |]. intros H. rewrite (Hc1 H), (Hc2 H). reflexivity.
Qed.

Lemma grows_more (n m : nat) (w w' : world) :
  (n <= m)%nat -> grows env n w w' -> grows env m w w'.
Proof.
  intros Hnm (Hl & evs & Ht & Hn & Hc). split; [exact Hl |].
  exists evs. split; [exact Ht |]. split; [lia | exact Hc].
Qed.

Lemma resolveCar_grows (vehicle : CarDoc) (w : world) :
  grows env 2 w (resolveCar env io vehicle w).2.
Proof.
  unfold resolveCar.
  destruct (negb (truthy_num (doc_traccarDeviceId vehicle)) && _); [solve_grows |].
  destruct (negb (truthy_num (doc_traccarDeviceId vehicle))); [solve_grows |].
  unfold bind. rewrite getDevice_eq.
  destruct (configured env) eqn:Hcfg; [| solve_grows].
  destruct (api_get_device io _) as [device | e].
  - destruct (negb (truthy_num (dev_positionId device))); [solve_grows |].
    rewrite getPosition_eq, Hcfg.
    destruct (api_get_position io _) as [[p |] | e]; try solve_grows.
    destruct (is_axios_404 e); solve_grows.
  - destruct (is_axios_404 e); solve_grows.
Qed.

Lemma carTrackingCatch_grows (err : exn) (w : world) :
  grows env 0 w (carTrackingCatch env err w).2.
Proof. unfold carTrackingCatch. destruct (is_not_configured err); solve_grows. Qed.

Lemma carTracking_guarded_grows (carId : string) (w : world) :
  grows env 2 w (try_catch (carTrackingBody env io carId) (carTrackingCatch env) w).2.
Proof.
  unfold try_catch, carTrackingBody, bind, tell, lift.
  destruct (Car_findById io carId) as [[vehicle |] | e].
  - pose proof (resolveCar_grows vehicle (emit (EvFindById carId) w)) as Hres.
    assert (H0 : grows env 0 w (emit (EvFindById carId) w)) by solve_grows.
    destruct (resolveCar env io vehicle (emit (EvFindById carId) w)) as [[r | e] w1];
      simpl in Hres |- *.
    + exact (grows_trans 0 2 _ _ _ H0 Hres).
    + pose proof (carTrackingCatch_grows e w1) as Hc.
      apply (grows_more (0 + 2 + 0)); [lia |].
      exact (grows_trans _ _ _ _ _ (grows_trans 0 2 _ _ _ H0 Hres) Hc).
  - solve_grows.
  - unfold carTrackingCatch. destruct (is_not_configured e); solve_grows.
Qed.

(** X3. A single-vehicle request changes the ledger at most at its own
    key, where it records its own reading, and the handler behind the
    limiter does not touch the ledger at all. It calls the provider at
    most twice, and not at all when the provider is not configured. *)
Theorem getCarTracking_effects (carId : string) (admin : option AdminLocals)
    (now : Z) (w : world) :
  exists w0,
    (w0 = w \/
     w0 = recorded (rateKey (adminIdOf admin) (scope_string (ScopeCar carId))) now w) /\
    grows env 2 w0 (getCarTracking env io carId admin now w).2.
Proof.
  unfold getCarTracking. simpl scope_string.
  destruct (negb (isValidObjectId io carId)).
  { exists w. split; [now left | apply grows_refl]. }
  unfold bind.
  destruct (limiter_total env (adminIdOf admin) ("car-" +:+ carId) now w) as [-> | ->]; simpl.
  - eexists. split; [right; reflexivity |]. apply carTracking_guarded_grows.
  - exists w. split; [now left | apply grows_refl].
Qed.

Lemma fleetTurn_grows (vehicle : CarDoc) (w : world) :
  grows env 2 w (fleetTurn env io vehicle w).2.
Proof.
  unfold fleetTurn, try_catch. rewrite fleetTurnBody_eq. cbv zeta.
  destruct (configured env) eqn:Hcfg.
  - destruct (api_get_device io _) as [device | e].
    + destruct (truthy_num (dev_positionId device)); [| solve_grows].
      destruct (api_get_position io _) as [[p |] | e]; try solve_grows.
      destruct (is_axios_404 e); [solve_grows |].
      unfold fleetTurnCatch. destruct (is_not_configured e); solve_grows.
    + destruct (is_axios_404 e); [solve_grows |].
      unfold fleetTurnCatch. destruct (is_not_configured e); solve_grows.
  - simpl. solve_grows.
Qed.

Lemma fleetLoop_grows (loaded : list CarDoc) :
  forall (pushed : list FleetCar) (w : world),
    grows env (2 * List.length loaded) w (fleetLoop env io loaded pushed w).2.
Proof.
  induction loaded as [| vehicle rest IH]; intros pushed w.
  - apply grows_refl.
  - cbn [fleetLoop]. unfold bind.
    pose proof (fleetTurn_grows vehicle w) as Hturn.
    destruct (fleetTurn env io vehicle w) as [[[entry | r] | e] w1]; simpl in Hturn |- *.
    + apply (grows_more (2 + 2 * List.length rest)); [lia |].
      exact (grows_trans _ _ _ _ _ Hturn (IH _ w1)).
    + apply (grows_more 2); [lia | exact Hturn].
    + apply (grows_more 2); [lia | exact Hturn].
Qed.


Lemma fleet_guarded_grows (w0 : world) :
  grows env (2 * List.length (loadable io)) w0
    (try_catch (bind (Car_find_mapped io) (fun loaded => fleetLoop env io loaded []))
       (fleetCatch env) w0).2.
Proof.
  unfold try_catch, Car_find_mapped, bind, tell, lift, ret, loadable.
  destruct (Car_documents io) as [docs | e].
  - set (w1 := emit EvFindMapped w0).
    assert (H0 : grows env 0 w0 w1) by (subst w1; solve_grows).
    pose proof (fleetLoop_grows (List.filter mappedQuery docs) [] w1) as Hloop.
    destruct (fleetLoop_returns env io (fun _ => True) (List.filter mappedQuery docs)
                (fun _ _ => I) [] w1 (List.Forall_nil _)) as (r & w' & Hrun & _).
    rewrite Hrun in Hloop |- *. simpl in Hloop |- *.
    exact (grows_trans 0 _ _ _ _ H0 Hloop).
  - unfold fleetCatch. destruct (is_not_configured e); solve_grows.
Qed.

(** X4. A fleet request changes the ledger at most at its own key, and
    the handler behind the limiter does not touch the ledger. It calls
    the provider at most twice for each vehicle the query can load, and
    not at all when the provider is not configured. *)
Theorem getFleetTracking_effects (admin : option AdminLocals) (now : Z) (w : world) :
  exists w0,
    (w0 = w \/
     w0 = recorded (rateKey (adminIdOf admin) (scope_string ScopeFleet)) now w) /\
    grows env (2 * List.length (loadable io)) w0 (getFleetTracking env io admin now w).2.
Proof.
  unfold getFleetTracking, bind. simpl scope_string.
  destruct (limiter_total env (adminIdOf admin) "fleet" now w) as [-> | ->]; simpl.
  - eexists. split; [right; reflexivity |]. apply fleet_guarded_grows.
  - exists w. split; [now left | apply grows_refl].
Qed.






(** X6. With the provider not configured the answers depend on whether
    a provider call is due. An admitted single-vehicle request for a
    found vehicle is answered [traccar_not_configured] with code 503
    when the vehicle has a nonzero device id, and [not_mapped] with
    code 404 as ever when it has none. An admitted fleet request is
    answered [traccar_not_configured] with code 503 and an empty list
    when the query loads a vehicle, and [ok] with code 200 and an empty
    list when it loads none. In each case only the database call is
    logged. *)
Theorem unconfigured_answers (admin : option AdminLocals) (now : Z) (w : world) :
  configured env = false ->
  (forall carId vehicle,
     isValidObjectId io carId = true ->
     (enforceRateLimit env (adminIdOf admin) (scope_string (ScopeCar carId)) now w).1
     = Returns true ->
     Car_findById io carId = Returns (Some vehicle) ->
     getCarTracking env io carId admin now w
     = (Returns (if truthy_num (doc_traccarDeviceId vehicle)
                 then send 503 (carPayload env traccar_not_configured None None)
                 else send 404 (carPayload env not_mapped (Some (mapCar vehicle)) None)),
        emit (EvFindById carId)
          (recorded (rateKey (adminIdOf admin) (scope_string (ScopeCar carId))) now w))) /\
  (forall docs,
     (enforceRateLimit env (adminIdOf admin) (scope_string ScopeFleet) now w).1
     = Returns true ->
     Car_documents io = Returns docs ->
     getFleetTracking env io admin now w
     = (Returns (match List.filter mappedQuery docs with
                 | [] => send 200 (fleetPayload env ok [])
                 | _ :: _ => send 503 (fleetPayload env traccar_not_configured [])
                 end),
        emit EvFindMapped
          (recorded (rateKey (adminIdOf admin) (scope_string ScopeFleet)) now w))).
Proof.
  intros Hcfg. split.
  - intros carId vehicle Hvalid Hlim Hfind. simpl scope_string in *.
    unfold getCarTracking, bind. rewrite Hvalid. simpl.
    destruct (limiter_total env (adminIdOf admin) ("car-" +:+ carId) now w) as [H | H];
      rewrite H in Hlim |- *; [| discriminate]. simpl.
    unfold try_catch, carTrackingBody, bind, tell, lift. rewrite Hfind.
    destruct (truthy_num (doc_traccarDeviceId vehicle)) eqn:Hid.
    + unfold resolveCar. rewrite Hid. simpl. unfold bind.
      rewrite getDevice_eq, Hcfg. reflexivity.
    + now rewrite resolveCar_unmapped.
  - intros docs Hlim Hdocs.
    rewrite (getFleetTracking_loop env io admin now w docs Hlim Hdocs).
    simpl scope_string.
    destruct (List.filter mappedQuery docs) as [| vehicle rest]; [reflexivity |].
    cbn [fleetLoop]. unfold bind, fleetTurn, try_catch.
    rewrite fleetTurnBody_eq, Hcfg. reflexivity.
Qed.

(** *** The shapes of the responses *)

Lemma resolveCar_shape (vehicle : CarDoc) (w w' : world) (r : response CarTrackingPayload) :
  resolveCar env io vehicle w = (Returns r, w') -> car_response_shape r = true.
Proof.
  unfold resolveCar.
  destruct (negb (truthy_num (doc_traccarDeviceId vehicle)) && _);
    [intros [= <- _]; reflexivity |].
  destruct (negb (truthy_num (doc_traccarDeviceId vehicle)));
    [intros [= <- _]; reflexivity |].
  unfold bind. rewrite getDevice_eq.
  destruct (configured env) eqn:Hcfg; [| discriminate].
  destruct (api_get_device io _) as [device | e].
  - destruct (negb (truthy_num (dev_positionId device)));
      [intros [= <- _]; reflexivity |].
    rewrite getPosition_eq, Hcfg.
    destruct (api_get_position io _) as [[p |] | e];
      try (intros [= <- _]; reflexivity).
    destruct (is_axios_404 e); [intros [= <- _]; reflexivity | discriminate].
  - destruct (is_axios_404 e); [intros [= <- _]; reflexivity | discriminate].
Qed.

(** X7. In every response of the single-vehicle handler the parts fit
    together: code 200 goes with [ok] and [no_fix_yet], a position is
    present exactly with [ok], the vehicle is present exactly with [ok],
    [no_fix_yet], [not_mapped] and [device_not_found], and each of the
    other statuses has its own code (400 or 404, 429, 503, 502). *)
Theorem getCarTracking_shape (carId : string) (admin : option AdminLocals)
    (now : Z) (w : world) :
  exists r w',
    getCarTracking env io carId admin now w = (Returns r, w') /\
    car_response_shape r = true.
Proof.
  unfold getCarTracking.
  destruct (negb (isValidObjectId io carId)); [eexists _, _; split; reflexivity |].
  unfold bind.
  destruct (limiter_total env (adminIdOf admin) ("car-" +:+ carId) now w) as [-> | ->]; simpl;
    [| eexists _, _; split; reflexivity].
  unfold try_catch.
  destruct (carTrackingBody env io carId _) as [[r | e] w1] eqn:Hbody.
  - exists r, w1. split; [reflexivity |].
    revert Hbody. unfold carTrackingBody, bind, tell, lift.
    destruct (Car_findById io carId) as [[vehicle |] | e]; try discriminate.
    + apply resolveCar_shape.
    + intros [= <- _]. reflexivity.
  - unfold carTrackingCatch. destruct (is_not_configured e);
      eexists _, _; split; reflexivity.
Qed.

Lemma fleetTurn_shape (vehicle : CarDoc) (w : world) :
  (exists entry w',
      fleetTurn env io vehicle w = (Returns (Push entry), w') /\
      fleet_entry_shape entry = true) \/
  (exists w', fleetTurn env io vehicle w = (Returns (Leave (unconfiguredResponse env)), w')).
Proof.
  unfold fleetTurn, try_catch. rewrite fleetTurnBody_eq. cbv zeta.
  destruct (configured env).
  - destruct (api_get_device io _) as [device | e].
    + destruct (truthy_num (dev_positionId device));
        [| left; eexists _, _; split; reflexivity].
      destruct (api_get_position io _) as [[p |] | e];
        try (left; eexists _, _; split; reflexivity).
      destruct (is_axios_404 e); [left; eexists _, _; split; reflexivity |].
      unfold fleetTurnCatch. destruct (is_not_configured e);
        [right; eexists; reflexivity | left; eexists _, _; split; reflexivity].
    + destruct (is_axios_404 e); [left; eexists _, _; split; reflexivity |].
      unfold fleetTurnCatch. destruct (is_not_configured e);
        [right; eexists; reflexivity | left; eexists _, _; split; reflexivity].
  - right. eexists. reflexivity.
Qed.

Lemma fleetLoop_shape (loaded : list CarDoc) :
  forall (pushed : list FleetCar) (w : world),
    List.forallb fleet_entry_shape pushed = true ->
    exists r w',
      fleetLoop env io loaded pushed w = (Returns r, w') /\
      fleet_response_shape r = true.
Proof.
  induction loaded as [| vehicle rest IH]; intros pushed w Hpushed.
  - eexists _, _. split; [reflexivity |].
    unfold fleet_response_shape. simpl. exact Hpushed.
  - cbn [fleetLoop]. unfold bind.
    destruct (fleetTurn_shape vehicle w) as [(entry & w1 & -> & Hentry) | (w1 & ->)].
    + apply IH. rewrite List.forallb_app, Hpushed. simpl. now rewrite Hentry.
    + eexists _, _. split; reflexivity.
Qed.

(** X8. In every response of the fleet handler the parts fit together:
    the status is [ok], [rate_limited], [traccar_not_configured] or
    [traccar_error], with code 200, 429, 503 or 502; the list is empty
    unless the status is [ok]; and an entry carries a position exactly
    when its status is [ok]. *)
Theorem getFleetTracking_shape (admin : option AdminLocals) (now : Z) (w : world) :
  exists r w',
    getFleetTracking env io admin now w = (Returns r, w') /\
    fleet_response_shape r = true.
Proof.
  unfold getFleetTracking, bind.
  destruct (limiter_total env (adminIdOf admin) "fleet" now w) as [-> | ->]; simpl;
    [| eexists _, _; split; reflexivity].
  unfold try_catch, Car_find_mapped, bind, tell, lift, ret.
  destruct (Car_documents io) as [docs | e].
  - destruct (fleetLoop_shape (List.filter mappedQuery docs) []
                (emit EvFindMapped (recorded (rateKey (adminIdOf admin) "fleet") now w))
                eq_refl) as (r & w' & -> & Hshape).
    now exists r, w'.
  - unfold fleetCatch. destruct (is_not_configured e); eexists _, _; split; reflexivity.
Qed.

End Effects.

(** ** Runs of the limiter *)

Section Runs.

Variable env : env_config.

Abbreviation interval := (pollIntervalMs env).

Lemma serve_cons (c : call) (rest : list call) (w : world) :
  serve env (c :: rest) w
  = ((c, admitted env c w)
       :: (serve env rest
             (enforceRateLimit env (call_admin c) (call_scope c) (call_now c) w).2).1,
     (serve env rest
        (enforceRateLimit env (call_admin c) (call_scope c) (call_now c) w).2).2).
Proof. cbn [serve]. now destruct (serve env rest _). Qed.

(** One call, by its answer: the world it leaves, and what an answer
    [true] says about the entry it found. *)
Lemma call_cases (c : call) (w : world) :
  (admitted env c w = true /\
   (enforceRateLimit env (call_admin c) (call_scope c) (call_now c) w).2
   = recorded (call_key c) (call_now c) w /\
   forall l, lastRequestByAdmin w !! call_key c = Some l -> l <> 0 ->
             interval <= call_now c - l) \/
  (admitted env c w = false /\
   (enforceRateLimit env (call_admin c) (call_scope c) (call_now c) w).2 = w).
Proof.
  unfold admitted, enforceRateLimit, call_key.
  destruct (lastRequestByAdmin w !! rateKey (call_admin c) (call_scope c)) as [l |] eqn:Hl;
    simpl.
  - destruct (negb (Z.eqb l 0)) eqn:Hz; simpl.
    + destruct (Z.ltb_spec (call_now c - l) interval) as [Hlt | Hge]; simpl.
      * right. split; reflexivity.
      * left. repeat split. intros l' [= <-] _. exact Hge.
    + left. repeat split. intros l' [= <-] Hnz.
      apply negb_false_iff, Z.eqb_eq in Hz. contradiction.
  - left. repeat split. intros l' Hl'. discriminate.
Qed.

Lemma admitted_times_cons_own (c : call) (answers : list (call * bool)) :
  admitted_times (call_key c) ((c, true) :: answers)
  = call_now c :: admitted_times (call_key c) answers.
Proof. unfold admitted_times. simpl. now rewrite String.eqb_refl. Qed.

Lemma admitted_times_cons_rejected (key : string) (c : call) (answers : list (call * bool)) :
  admitted_times key ((c, false) :: answers) = admitted_times key answers.
Proof. reflexivity. Qed.

Lemma admitted_times_cons_other (key : string) (c : call) (b : bool)
    (answers : list (call * bool)) :
  call_key c <> key ->
  admitted_times key ((c, b) :: answers) = admitted_times key answers.
Proof.
  intros Hne. unfold admitted_times. simpl.
  destruct (String.eqb_spec (call_key c) key); [contradiction |].
  now rewrite andb_false_r.
Qed.

Lemma last_cons {A : Type} (l : list A) (a d : A) :
  List.last (a :: l) d = List.last l a.
Proof.
  revert a d. induction l as [| b l IH]; intros a d; [reflexivity |].
  change (List.last (a :: b :: l) d) with (List.last (b :: l) d).
  now rewrite !IH.
Qed.

(** X9. Over any run of calls with nonzero readings, started from a
    ledger whose entry for the key is missing or nonzero, the readings
    admitted for the key, taken after that entry, are each at least the
    interval after the one before: the provider is polled for a key at
    most once per interval. *)
Theorem admitted_readings_are_spaced (key : string) (calls : list call) (w : world) :
  (forall c, In c calls -> call_now c <> 0) ->
  lastRequestByAdmin w !! key <> Some 0 ->
  spaced interval
    (since (lastRequestByAdmin w !! key) (admitted_times key (serve env calls w).1)).
Proof.
  revert w. induction calls as [| c rest IH]; intros w Hnz Hentry.
  - simpl. now destruct (lastRequestByAdmin w !! key).
  - rewrite serve_cons. cbn [fst].
    assert (Hrest : forall x, In x rest -> call_now x <> 0)
      by (intros x Hx; apply Hnz; now right).
    assert (Hc : call_now c <> 0) by (apply Hnz; now left).
    destruct (String.eqb_spec (call_key c) key) as [Hk | Hk].
    + subst key.
      destruct (call_cases c w) as [(-> & -> & Hgap) | (-> & ->)].
      * rewrite admitted_times_cons_own.
        specialize (IH (recorded (call_key c) (call_now c) w) Hrest).
        simpl lastRequestByAdmin in IH. rewrite lookup_insert_eq in IH.
        specialize (IH ltac:(congruence)). simpl since in IH.
        destruct (lastRequestByAdmin w !! call_key c) as [l |] eqn:Hl; simpl since.
        -- split; [| exact IH]. apply (Hgap l eq_refl). congruence.
        -- exact IH.
      * rewrite admitted_times_cons_rejected. now apply IH.
    + rewrite admitted_times_cons_other by exact Hk.
      assert (Hsame : lastRequestByAdmin
                        (enforceRateLimit env (call_admin c) (call_scope c) (call_now c) w).2
                        !! key = lastRequestByAdmin w !! key).
      { destruct (call_cases c w) as [(_ & -> & _) | (_ & ->)]; [| reflexivity].
        simpl. now apply lookup_insert_ne. }
      specialize (IH (enforceRateLimit env (call_admin c) (call_scope c) (call_now c) w).2
                    Hrest).
      rewrite Hsame in IH. now apply IH.
Qed.

(** X10. After any run the entry of a key is the reading of the last
    call admitted for it, or the entry the run started from when none
    was admitted. So an entry, once made, is never removed. *)
Theorem ledger_holds_last_admitted (key : string) (calls : list call) (w : world) :
  lastRequestByAdmin (serve env calls w).2 !! key
  = List.last (List.map Some (admitted_times key (serve env calls w).1))
      (lastRequestByAdmin w !! key) /\
  (is_Some (lastRequestByAdmin w !! key) ->
   is_Some (lastRequestByAdmin (serve env calls w).2 !! key)).
Proof.
  assert (Hlast : forall calls w,
            lastRequestByAdmin (serve env calls w).2 !! key
            = List.last (List.map Some (admitted_times key (serve env calls w).1))
                (lastRequestByAdmin w !! key)).
  { clear calls w. induction calls as [| c rest IH]; intros w; [reflexivity |].
    rewrite serve_cons. cbn [fst snd]. rewrite IH.
    destruct (String.eqb_spec (call_key c) key) as [Hk | Hk].
    - subst key.
      destruct (call_cases c w) as [(-> & -> & _) | (-> & ->)].
      + rewrite admitted_times_cons_own. simpl lastRequestByAdmin.
        rewrite lookup_insert_eq. cbn [List.map].
        now rewrite last_cons.
      + now rewrite admitted_times_cons_rejected.
    - rewrite admitted_times_cons_other by exact Hk. f_equal.
      destruct (call_cases c w) as [(_ & -> & _) | (_ & ->)]; [| reflexivity].
      simpl. now apply lookup_insert_ne. }
  split; [apply Hlast |].
  intros [l Hl]. rewrite Hlast, Hl.
  generalize l. induction (admitted_times key (serve env calls w).1) as [| t times IHt];
    intros l0; [now exists l0 |].
  cbn [List.map]. rewrite last_cons. apply IHt.
Qed.

(** X11. Calls for one key whose readings are each at least the
    interval after the one before, the first of them at least the
    interval after the entry of the key if there is one, are all
    admitted: a caller that polls no faster than the interval is never
    turned away. *)
Theorem spaced_calls_are_admitted (adminId scope : string) (times : list Z) (w : world) :
  spaced interval (since (lastRequestByAdmin w !! rateKey adminId scope) times) ->
  List.map snd
    (serve env
       (List.map (fun t => {| call_admin := adminId; call_scope := scope; call_now := t |})
          times) w).1
  = List.repeat true (List.length times).
Proof.
  revert w. induction times as [| t rest IH]; intros w Hsp; [reflexivity |].
  cbn [List.map]. rewrite serve_cons. cbn [fst List.map snd List.length List.repeat].
  set (c := {| call_admin := adminId; call_scope := scope; call_now := t |}).
  assert (Hadm : enforceRateLimit env adminId scope t w
                 = (Returns true, recorded (rateKey adminId scope) t w)).
  { destruct (lastRequestByAdmin w !! rateKey adminId scope) as [l |] eqn:Hl.
    - apply (limiter_old env adminId scope t w l Hl). simpl in Hsp. apply Hsp.
    - now apply limiter_missing. }
  f_equal.
  - unfold admitted. subst c. simpl. now rewrite Hadm.
  - subst c. cbn [call_admin call_scope call_now]. rewrite Hadm. cbn [snd].
    apply IH. simpl lastRequestByAdmin. rewrite lookup_insert_eq. simpl since.
    destruct (lastRequestByAdmin w !! rateKey adminId scope); simpl in Hsp.
    + destruct rest; [exact I | apply Hsp].
    + exact Hsp.
Qed.

End Runs.

(** ** Callers *)

Section Callers.

Variable env : env_config.
Variable io : collaborators.

Lemma no_colon_head (c : ascii) (s : string) :
  no_colon (String c s) = true -> c <> ":"%char /\ no_colon s = true.
Proof.
  simpl. intros H. apply andb_true_iff in H as [Hc Hs]. split; [| exact Hs].
  intros ->. now rewrite Ascii.eqb_refl in Hc.
Qed.

(** For caller ids without a colon the key tells caller and scope apart. *)
Lemma rateKey_inj_pair (a1 a2 s1 s2 : string) :
  no_colon a1 = true -> no_colon a2 = true ->
  rateKey a1 s1 = rateKey a2 s2 -> a1 = a2 /\ s1 = s2.
Proof.
  unfold rateKey. revert a2.
  induction a1 as [| c1 a1 IH]; intros [| c2 a2] H1 H2; simpl.
  - intros H. split; [reflexivity |]. exact (append_inj_r ":" s1 s2 H).
  - intros [= <- _]. apply no_colon_head in H2 as [Hc _]. contradiction.
  - intros [= -> _]. apply no_colon_head in H1 as [Hc _]. contradiction.
  - intros [= <- Htail].
    apply no_colon_head in H1 as [_ H1]. apply no_colon_head in H2 as [_ H2].
    destruct (IH a2 H1 H2 Htail) as [-> ->]. now split.
Qed.

Lemma handlers_keep_other_keys (admin : option AdminLocals) (key : string) (w : world) :
  (forall scope, rateKey (adminIdOf admin) scope <> key) ->
  (forall carId now,
     lastRequestByAdmin (getCarTracking env io carId admin now w).2 !! key
     = lastRequestByAdmin w !! key) /\
  (forall now,
     lastRequestByAdmin (getFleetTracking env io admin now w).2 !! key
     = lastRequestByAdmin w !! key).
Proof.
  intros Hkey. split.
  - intros carId now. unfold getCarTracking.
    destruct (negb (isValidObjectId io carId)); [reflexivity |].
    unfold bind.
    destruct (limiter_total env (adminIdOf admin) ("car-" +:+ carId) now w) as [-> | ->];
      simpl; [| reflexivity].
    destruct (carTracking_guarded_grows env io carId
                (recorded (rateKey (adminIdOf admin) ("car-" +:+ carId)) now w))
      as [-> _].
    simpl. apply lookup_insert_ne, Hkey.
  - intros now. unfold getFleetTracking, bind.
    destruct (limiter_total env (adminIdOf admin) "fleet" now w) as [-> | ->];
      simpl; [| reflexivity].
    destruct (fleet_guarded_grows env io
                (recorded (rateKey (adminIdOf admin) "fleet") now w)) as [Hl _].
    etransitivity; [exact (f_equal (fun m => m !! key) Hl) |].
    simpl. apply lookup_insert_ne, Hkey.
Qed.

(** X12. Two callers whose ids differ and hold no colon, as the texts
    of two ObjectIds do, never share a window: whatever request one of
    them makes, for a vehicle or for the fleet, the limiter gives the
    other the same answer for every scope and reading as before. *)
Theorem callers_do_not_share_windows (adminA adminB : option AdminLocals) (w : world) :
  no_colon (adminIdOf adminA) = true ->
  no_colon (adminIdOf adminB) = true ->
  adminIdOf adminA <> adminIdOf adminB ->
  forall scope t,
    (forall carId now,
       (enforceRateLimit env (adminIdOf adminB) scope t
          (getCarTracking env io carId adminA now w).2).1
       = (enforceRateLimit env (adminIdOf adminB) scope t w).1) /\
    (forall now,
       (enforceRateLimit env (adminIdOf adminB) scope t
          (getFleetTracking env io adminA now w).2).1
       = (enforceRateLimit env (adminIdOf adminB) scope t w).1).
Proof.
  intros HA HB Hne scope t.
  assert (Hkey : forall s, rateKey (adminIdOf adminA) s <> rateKey (adminIdOf adminB) scope).
  { intros s H. now destruct (rateKey_inj_pair _ _ _ _ HA HB H). }
  destruct (handlers_keep_other_keys adminA _ w Hkey) as [Hcar Hfleet].
  split.
  - intros carId now. apply limiter_decision_by_entry, Hcar.
  - intros now. apply limiter_decision_by_entry, Hfleet.
Qed.

End Callers.

(** ** The middleware and the routes *)

Section Guard.

Variable env : env_config.
Variable io : collaborators.
Variable auth : auth_collaborators.

(** What [adminGuard] does, by the token, the session and the users. *)
Lemma adminGuard_eq (req : Request) (w : world) :
  adminGuard auth io req w
  = if negb (truthy_str (guardToken auth req))
    then (Returns (Denied 403 "Admin token required"), w)
    else
      match decryptJWT auth (default "" (guardToken auth req)) with
      | Throws e => (Returns (Denied 401 "Unauthorized"), emit (EvLogError e) w)
      | Returns sessionData =>
        if negb (truthy_str (session_id_of sessionData))
           || negb (isValidObjectId io (default "" (session_id_of sessionData)))
        then (Returns (Denied 401 "Unauthorized"), w)
        else
          match User_documents auth with
          | Throws e => (Returns (Denied 401 "Unauthorized"), emit (EvLogError e) w)
          | Returns docs =>
            match List.find (adminQuery auth (default "" (session_id_of sessionData))) docs with
            | Some a => (Returns (Next {| id := Some (user_id a) |}), w)
            | None => (Returns (Denied 403 "Forbidden"), w)
            end
          end
      end.
Proof.
  unfold adminGuard, adminGuardBody, try_catch.
  destruct (negb (truthy_str (guardToken auth req))); [reflexivity |].
  unfold bind, lift.
  destruct (decryptJWT auth _) as [sessionData | e]; [| reflexivity].
  destruct (negb (truthy_str (session_id_of sessionData)) || _); [reflexivity |].
  unfold User_findOne_admin, bind, lift, ret.
  destruct (User_documents auth) as [docs | e]; [| reflexivity].
  now destruct (List.find _ docs).
Qed.

(** X13. The middleware lets a request through only for a user of the
    collection that has the id of the session the token decrypts to,
    the admin type, and no blacklist flag set; the session id is a valid
    ObjectId, and the token is the signed cookie of an admin request or
    else the header. The caller id handed on is the text of that user's
    id, and the world is left as it was. *)
Theorem adminGuard_passes_admins_only (req : Request) (w w' : world)
    (locals : AdminLocals) :
  adminGuard auth io req w = (Returns (Next locals), w') ->
  exists token sessionData sid docs u,
    guardToken auth req = Some token /\ token <> "" /\
    decryptJWT auth token = Returns sessionData /\
    session_id_of sessionData = Some sid /\ sid <> "" /\
    isValidObjectId io sid = true /\
    User_documents auth = Returns docs /\
    In u docs /\
    user_id u = ObjectId_text auth sid /\
    user_type u = UserType_Admin auth /\
    user_blacklisted u <> Some true /\
    locals = {| id := Some (user_id u) |} /\
    w' = w.
Proof.
  rewrite adminGuard_eq.
  destruct (guardToken auth req) as [token |] eqn:Htoken; [| discriminate].
  destruct (truthy_str (Some token)) eqn:Htruthy; [| discriminate]. simpl.
  destruct (decryptJWT auth token) as [sessionData | e] eqn:Hjwt; [| discriminate].
  destruct (session_id_of sessionData) as [sid |] eqn:Hsid; [| discriminate].
  destruct (truthy_str (Some sid)) eqn:Hsidt; [| discriminate]. simpl.
  destruct (isValidObjectId io sid) eqn:Hvalid; [| discriminate]. simpl.
  destruct (User_documents auth) as [docs | e] eqn:Hdocs; [| discriminate].
  destruct (List.find (adminQuery auth sid) docs) as [u |] eqn:Hfind; [| discriminate].
  intros [= <- <-].
  apply List.find_some in Hfind as [Hin Hq].
  unfold adminQuery in Hq. apply andb_true_iff in Hq as [Hq Hbl].
  apply andb_true_iff in Hq as [Hid Hty].
  apply String.eqb_eq in Hid, Hty.
  exists token, sessionData, sid, docs, u.
  repeat split; try assumption; try reflexivity.
  - now apply truthy_str_Some.
  - now apply truthy_str_Some.
  - intros Hb. rewrite Hb in Hbl. discriminate.
Qed.


(** The guard leaves the ledger alone. *)
Lemma adminGuard_ledger (req : Request) (w : world) :
  lastRequestByAdmin (adminGuard auth io req w).2 = lastRequestByAdmin w.
Proof.
  rewrite adminGuard_eq.
  destruct (negb (truthy_str (guardToken auth req))); [reflexivity |].
  destruct (decryptJWT auth _) as [sessionData | e]; [| reflexivity].
  destruct (negb (truthy_str (session_id_of sessionData)) || _); [reflexivity |].
  destruct (User_documents auth) as [docs | e]; [| reflexivity].
  now destruct (List.find _ docs).
Qed.

(** X15. On both routes the middleware runs first. A request it denies
    is answered by the middleware alone: the handler does not run, so
    the ledger is as before, no vehicle is looked up and the provider
    is not called. A request it lets through is answered by the handler,
    run with the caller id the middleware has set. *)
Theorem routes_run_guard_first (req : Request) (now : Z) (w : world) :
  match adminGuard auth io req w with
  | (Returns (Denied c m), w1) =>
    lastRequestByAdmin w1 = lastRequestByAdmin w /\
    (trace w1 = trace w \/ exists e, trace w1 = trace w ++ [EvLogError e]) /\
    (forall carId,
       carTrackingRoute env io auth req carId now w = (Returns (Refused c m), w1)) /\
    fleetTrackingRoute env io auth req now w = (Returns (Refused c m), w1)
  | (Returns (Next locals), w1) =>
    w1 = w /\
    (forall carId,
       exists r w',
         getCarTracking env io carId (Some locals) now w = (Returns r, w') /\
         carTrackingRoute env io auth req carId now w = (Returns (Handled r), w')) /\
    (exists r w',
       getFleetTracking env io (Some locals) now w = (Returns r, w') /\
       fleetTrackingRoute env io auth req now w = (Returns (Handled r), w'))
  | (Throws _, _) => False
  end.
Proof.
  unfold carTrackingRoute, fleetTrackingRoute, guardedRoute, bind.
  assert (Hnext : forall locals,
            (forall carId,
               exists r w',
                 getCarTracking env io carId (Some locals) now w = (Returns r, w') /\
                 (let (o, w1) := getCarTracking env io carId (Some locals) now w in
                  match o with
                  | Returns r0 => ret (Handled r0) w1
                  | Throws e => (Throws e, w1)
                  end) = (Returns (Handled r), w')) /\
            (exists r w',
               getFleetTracking env io (Some locals) now w = (Returns r, w') /\
               (let (o, w1) := getFleetTracking env io (Some locals) now w in
                match o with
                | Returns r0 => ret (Handled r0) w1
                | Throws e => (Throws e, w1)
                end) = (Returns (Handled r), w'))).
  { intros locals. split.
    - intros carId.
      destruct (getCarTracking_returns env io carId (Some locals) now w)
        as (r & w' & Hr & _).
      exists r, w'. split; [exact Hr |]. now rewrite Hr.
    - destruct (getFleetTracking_returns env io (fun _ => True) (fun _ _ => I)
                  (Some locals) now w) as (r & w' & Hr & _).
      exists r, w'. split; [exact Hr |]. now rewrite Hr. }
  rewrite adminGuard_eq.
  destruct (negb (truthy_str (guardToken auth req))).
  { repeat split; try reflexivity. now left. }
  destruct (decryptJWT auth _) as [sessionData | e].
  2: { repeat split; try reflexivity. right. now exists e. }
  destruct (negb (truthy_str (session_id_of sessionData)) || _).
  { repeat split; try reflexivity. now left. }
  destruct (User_documents auth) as [docs | e].
  2: { repeat split; try reflexivity. right. now exists e. }
  destruct (List.find _ docs) as [u |].
  - split; [reflexivity |]. apply Hnext.
  - repeat split; try reflexivity. now left.
Qed.

End Guard.

(** ** The fleet page on the responses of the fleet handler *)

Section FleetPage.

Variable env : env_config.
Variable io : collaborators.

Lemma getFleetTracking_entries_shaped (admin : option AdminLocals) (now : Z) (w : world) :
  exists r w',
    getFleetTracking env io admin now w = (Returns r, w') /\
    List.forallb fleet_entry_shape (cars (payload r)) = true.
Proof.
  unfold getFleetTracking, bind.
  destruct (limiter_total env (adminIdOf admin) "fleet" now w) as [-> | ->]; simpl;
    [| eexists _, _; split; reflexivity].
  unfold try_catch, Car_find_mapped, bind, tell, lift, ret.
  destruct (Car_documents io) as [docs | e].
  - destruct (fleetLoop_shape env io (List.filter mappedQuery docs) []
                (emit EvFindMapped (recorded (rateKey (adminIdOf admin) "fleet") now w))
                eq_refl) as (r & w' & -> & Hshape).
    exists r, w'. split; [reflexivity |].
    unfold fleet_response_shape in Hshape.
    destruct (fleet_status (payload r)); try discriminate;
      try (destruct (cars (payload r)); [reflexivity | discriminate]).
    now apply andb_true_iff in Hshape as [_ Hshape].
  - unfold fleetCatch. destruct (is_not_configured e); eexists _, _; split; reflexivity.
Qed.

Lemma shaped_marker (entry : FleetCar) :
  fleet_entry_shape entry = true -> hasMarker entry = statusIsOk entry.
Proof.
  unfold fleet_entry_shape, hasMarker, statusIsOk.
  destruct (car_status entry), (car_position entry); try discriminate; reflexivity.
Qed.

Lemma shaped_status (entry : FleetCar) :
  fleet_entry_shape entry = true ->
  car_status entry = ok \/ car_status entry = no_fix_yet \/
  car_status entry = device_not_found \/ car_status entry = traccar_error.
Proof.
  unfold fleet_entry_shape.
  destruct (car_status entry), (car_position entry); try discriminate; tauto.
Qed.

(** X16. On a response of the fleet handler the page draws one marker
    for each [ok] entry, in the order of the list, at the latitude and
    longitude of that entry's position: the test [c.position] of its
    filter drops no [ok] entry. *)
Theorem fleet_page_markers (admin : option AdminLocals) (now : Z) (w : world) :
  exists r w',
    getFleetTracking env io admin now w = (Returns r, w') /\
    List.filter hasMarker (cars (payload r)) = List.filter statusIsOk (cars (payload r)) /\
    Forall2 (fun entry marker =>
               exists p, car_position entry = Some p /\ marker = (lat p, lon p))
      (List.filter statusIsOk (cars (payload r)))
      (fleetPositions (Some (payload r))).
Proof.
  destruct (getFleetTracking_entries_shaped admin now w) as (r & w' & Hrun & Hshape).
  exists r, w'. split; [exact Hrun |].
  unfold fleetPositions, fleetCars.
  assert (Hfilter : List.filter hasMarker (cars (payload r))
                    = List.filter statusIsOk (cars (payload r))).
  { apply List.filter_ext_in. intros entry Hin. apply shaped_marker.
    rewrite List.forallb_forall in Hshape. now apply Hshape. }
  split; [exact Hfilter |]. rewrite Hfilter. clear Hfilter Hrun.
  induction (cars (payload r)) as [| entry entries IH]; [constructor |].
  simpl in Hshape. apply andb_true_iff in Hshape as [He Hrest].
  cbn [List.filter]. destruct (statusIsOk entry) eqn:Hok; [| now apply IH].
  cbn [List.map]. constructor; [| now apply IH].
  unfold fleet_entry_shape in He. unfold statusIsOk in Hok.
  destruct (car_status entry); try discriminate.
  destruct (car_position entry) as [p |]; [| discriminate]. now exists p.
Qed.

(** X17. On a response of the fleet handler the status the page shows
    for the whole fleet is [traccar_error] exactly when some entry is
    [device_not_found] or [traccar_error], and [ok] otherwise, whatever
    the top-level status of the response. So one entry the provider does
    not know, shown in the warning class in the list, puts the page
    header in the error class. *)
Theorem fleet_page_status (admin : option AdminLocals) (now : Z) (w : world) :
  exists r w',
    getFleetTracking env io admin now w = (Returns r, w') /\
    (fleetPageStatus (Some (payload r)) = traccar_error <->
     Exists (fun entry => car_status entry = device_not_found \/
                          car_status entry = traccar_error) (cars (payload r))) /\
    (fleetPageStatus (Some (payload r)) = ok <->
     Forall (fun entry => car_status entry = ok \/ car_status entry = no_fix_yet)
       (cars (payload r))) /\
    (forall entry, In entry (cars (payload r)) ->
       car_status entry = device_not_found ->
       statusClass (car_status entry) = "status-warn" /\
       statusClass (fleetPageStatus (Some (payload r))) = "status-error").
Proof.
  destruct (getFleetTracking_entries_shaped admin now w) as (r & w' & Hrun & Hshape).
  exists r, w'. split; [exact Hrun |].
  unfold fleetPageStatus, fleetCars.
  assert (Hex : List.existsb (fun c => match car_status c with
                                       | ok | no_fix_yet => false
                                       | _ => true
                                       end) (cars (payload r)) = true <->
                Exists (fun entry => car_status entry = device_not_found \/
                                     car_status entry = traccar_error) (cars (payload r))).
  { rewrite List.existsb_exists, List.Exists_exists. split.
    - intros (entry & Hin & Hst). exists entry. split; [exact Hin |].
      rewrite List.forallb_forall in Hshape.
      destruct (shaped_status entry (Hshape entry Hin)) as [H | [H | [H | H]]];
        rewrite H in Hst; try discriminate; tauto.
    - intros (entry & Hin & [H | H]); exists entry; rewrite H; tauto. }
  assert (Hall : List.existsb (fun c => match car_status c with
                                        | ok | no_fix_yet => false
                                        | _ => true
                                        end) (cars (payload r)) = false <->
                 Forall (fun entry => car_status entry = ok \/ car_status entry = no_fix_yet)
                   (cars (payload r))).
  { clear. induction (cars (payload r)) as [| entry entries IH]; simpl.
    - split; [constructor | reflexivity].
    - rewrite orb_false_iff, IH. split.
      + intros [Hst Hrest]. constructor; [| exact Hrest].
        destruct (car_status entry); try discriminate; tauto.
      + intros Hf. inversion Hf as [| ? ? [H | H] Hrest]; subst; rewrite H; tauto. }
  destruct (List.existsb _ (cars (payload r))) eqn:Hb.
  - split; [tauto |]. split.
    + split; [discriminate |]. intros HF. apply Hall in HF. discriminate.
    + intros entry _ ->. split; reflexivity.
  - split; [split; [discriminate | intros HE; apply Hex in HE; discriminate] |].
    split; [tauto |].
    intros entry Hin Hst. exfalso.
    assert (HE : Exists (fun entry => car_status entry = device_not_found \/
                                      car_status entry = traccar_error) (cars (payload r))).
    { apply List.Exists_exists. exists entry. tauto. }
    apply Hex in HE. discriminate.
Qed.

End FleetPage.

(** ** Failures behind the single-vehicle handler, and the polling of the pages *)

Section Failures.

Variable env : env_config.
Variable io : collaborators.

(** X18. Behind the limiter every failure is caught and answered by
    its message alone: an error whose message is the sentinel is answered
    [traccar_not_configured] with code 503 and not logged, any other is
    logged and answered [traccar_error] with code 502, in both cases
    with no vehicle and no position. This holds for a failure of the
    vehicle lookup, of the device fetch and of the position fetch, a 404
    of the provider apart. *)
Theorem getCarTracking_failures (carId : string) (admin : option AdminLocals)
    (now : Z) (w : world) :
  isValidObjectId io carId = true ->
  (enforceRateLimit env (adminIdOf admin) (scope_string (ScopeCar carId)) now w).1
  = Returns true ->
  let w1 := emit (EvFindById carId)
              (recorded (rateKey (adminIdOf admin) (scope_string (ScopeCar carId))) now w) in
  let answer (e : exn) (w2 : world) :=
    if is_not_configured e
    then (Returns (send 503 (carPayload env traccar_not_configured None None)), w2)
    else (Returns (send 502 (carPayload env traccar_error None None)),
          emit (EvLogError e) w2) in
  (forall e, Car_findById io carId = Throws e ->
     getCarTracking env io carId admin now w = answer e w1) /\
  (forall vehicle d,
     Car_findById io carId = Returns (Some vehicle) ->
     doc_traccarDeviceId vehicle = Some d -> d <> 0 ->
     configured env = true ->
     (forall e, api_get_device io d = Throws e -> is_axios_404 e = false ->
        getCarTracking env io carId admin now w = answer e (emit (EvGetDevice d) w1)) /\
     (forall device p e,
        api_get_device io d = Returns device ->
        dev_positionId device = Some p -> p <> 0 ->
        api_get_position io p = Throws e -> is_axios_404 e = false ->
        getCarTracking env io carId admin now w
        = answer e (emit (EvGetPosition p) (emit (EvGetDevice d) w1)))).
Proof.
  intros Hvalid Hlim w1 answer. subst w1 answer. simpl scope_string in *.
  assert (Hrun : getCarTracking env io carId admin now w
                 = try_catch (carTrackingBody env io carId) (carTrackingCatch env)
                     (recorded (rateKey (adminIdOf admin) ("car-" +:+ carId)) now w)).
  { unfold getCarTracking, bind. rewrite Hvalid. simpl.
    destruct (limiter_total env (adminIdOf admin) ("car-" +:+ carId) now w) as [H | H];
      rewrite H in Hlim |- *; [reflexivity | discriminate]. }
  rewrite Hrun. unfold try_catch, carTrackingBody, carTrackingCatch, bind, tell, lift.
  split.
  - intros e ->. now destruct (is_not_configured e).
  - intros vehicle d -> Hd Hnz Hcfg.
    rewrite (resolveCar_mapped env io vehicle d _ Hd Hnz).
    unfold bind. rewrite getDevice_eq, Hcfg. split.
    + intros e -> ->. now destruct (is_not_configured e).
    + intros device p e -> Hp Hpnz Hpos H404.
      assert (Ht : truthy_num (dev_positionId device) = true)
        by (rewrite Hp; now apply truthy_num_Some).
      rewrite Ht, Hp. simpl. rewrite getPosition_eq, Hcfg, Hpos, H404.
      now destruct (is_not_configured e).
Qed.

(** X19. Whatever a handler answers, a page that takes the
    [pollAfterSeconds] of the answer sets its timer to a delay that is
    at least the interval of the limiter, and never less than five
    seconds. *)
Theorem pages_poll_no_faster_than_the_limiter (pollSeconds : Z) :
  5000 <= pollDelayMs pollSeconds /\
  (forall carId admin now w,
     exists r w',
       getCarTracking env io carId admin now w = (Returns r, w') /\
       nextPollSeconds (Some (pollAfterSeconds (payload r))) pollSeconds
       = pollIntervalSeconds env /\
       pollIntervalMs env
       <= pollDelayMs (nextPollSeconds (Some (pollAfterSeconds (payload r))) pollSeconds)) /\
  (forall admin now w,
     exists r w',
       getFleetTracking env io admin now w = (Returns r, w') /\
       nextPollSeconds (Some (fleet_pollAfterSeconds (payload r))) pollSeconds
       = pollIntervalSeconds env /\
       pollIntervalMs env
       <= pollDelayMs (nextPollSeconds (Some (fleet_pollAfterSeconds (payload r)))
                         pollSeconds)).
Proof.
  assert (Hnext : nextPollSeconds (Some (pollIntervalSeconds env)) pollSeconds
                  = pollIntervalSeconds env).
  { unfold nextPollSeconds, pollIntervalSeconds. simpl.
    destruct (Z.eqb_spec (TRACCAR_MIN_POLL_INTERVAL env) 0) as [H0 | H0]; [reflexivity |].
    destruct (Z.eqb_spec (TRACCAR_MIN_POLL_INTERVAL env) 0); [contradiction | reflexivity]. }
  assert (Hdelay : forall s, s * 1000 <= pollDelayMs s /\ 5000 <= pollDelayMs s)
    by (intros s; unfold pollDelayMs; lia).
  split; [apply Hdelay |]. split.
  - intros carId admin now w.
    destruct (getCarTracking_returns env io carId admin now w) as (r & w' & Hrun & Hpoll).
    exists r, w'. rewrite Hpoll, Hnext. repeat split; [exact Hrun |]. apply Hdelay.
  - intros admin now w.
    destruct (getFleetTracking_returns env io (fun _ => True) (fun _ _ => I) admin now w)
      as (r & w' & Hrun & Hpoll & _).
    exists r, w'. rewrite Hpoll, Hnext. repeat split; [exact Hrun |]. apply Hdelay.
Qed.

End Failures.

(** ** The properties above on the demo deployment *)

Lemma resolver_is_last_position_lookup_witness :
  42 <> 0 /\
  match getLastPositionByDevice demo_env (demo_io demo_docs) 42 blank with
  | (Returns found, w') =>
    exists r,
      resolveCar demo_env (demo_io demo_docs) car_v1 blank = (Returns r, w') /\
      position (payload r) = found /\
      car (payload r) = Some (mapCar car_v1) /\
      (status (payload r) = ok <-> found <> None)
  | (Throws e, w') => resolveCar demo_env (demo_io demo_docs) car_v1 blank = (Throws e, w')
  end.
Proof.
  assert (Hnz : 42 <> 0) by lia.
  split; [exact Hnz |].
  exact (resolver_is_last_position_lookup demo_env (demo_io demo_docs) car_v1 42 blank
           eq_refl Hnz).
Defined.


Lemma unconfigured_answers_witness :
  getCarTracking unset_env (demo_io demo_docs) (doc_id car_v1) None 1000 blank
  = (Returns (send 503 (carPayload unset_env traccar_not_configured None None)),
     emit (EvFindById (doc_id car_v1))
       (recorded (rateKey "admin" (scope_string (ScopeCar (doc_id car_v1)))) 1000 blank)) /\
  getCarTracking unset_env (demo_io demo_docs) (doc_id car_plain) None 1000 blank
  = (Returns (send 404 (carPayload unset_env not_mapped (Some (mapCar car_plain)) None)),
     emit (EvFindById (doc_id car_plain))
       (recorded (rateKey "admin" (scope_string (ScopeCar (doc_id car_plain)))) 1000 blank)) /\
  getFleetTracking unset_env (demo_io demo_docs) None 1000 blank
  = (Returns (send 503 (fleetPayload unset_env traccar_not_configured [])),
     emit EvFindMapped (recorded (rateKey "admin" (scope_string ScopeFleet)) 1000 blank)) /\
  getFleetTracking unset_env (demo_io [car_plain]) None 1000 blank
  = (Returns (send 200 (fleetPayload unset_env ok [])),
     emit EvFindMapped (recorded (rateKey "admin" (scope_string ScopeFleet)) 1000 blank)).
Proof.
  destruct (unconfigured_answers unset_env (demo_io demo_docs) None 1000 blank eq_refl)
    as [Hcar Hfleet].
  destruct (unconfigured_answers unset_env (demo_io [car_plain]) None 1000 blank eq_refl)
    as [_ Hnone].
  split; [exact (Hcar (doc_id car_v1) car_v1 eq_refl eq_refl eq_refl) |].
  split; [exact (Hcar (doc_id car_plain) car_plain eq_refl eq_refl eq_refl) |].
  split; [exact (Hfleet demo_docs eq_refl eq_refl) |].
  exact (Hnone [car_plain] eq_refl eq_refl).
Defined.

Lemma admitted_readings_are_spaced_witness :
  admitted_times (rateKey "admin" "fleet") (serve demo_env demo_run blank).1 = [1000; 7000] /\
  spaced (pollIntervalMs demo_env)
    (since (lastRequestByAdmin blank !! rateKey "admin" "fleet")
       (admitted_times (rateKey "admin" "fleet") (serve demo_env demo_run blank).1)).
Proof.
  split; [reflexivity |].
  apply (admitted_readings_are_spaced demo_env (rateKey "admin" "fleet") demo_run blank).
  - intros c [<- | [<- | [<- | [<- | []]]]]; simpl; lia.
  - discriminate.
Defined.

Lemma spaced_calls_are_admitted_witness :
  List.map snd
    (serve demo_env
       (List.map (fun t => {| call_admin := "admin"; call_scope := "fleet"; call_now := t |})
          [1000; 6000; 11500]) blank).1
  = [true; true; true].
Proof.
  apply (spaced_calls_are_admitted demo_env "admin" "fleet" [1000; 6000; 11500] blank).
  vm_compute. split; [discriminate |]. split; [discriminate | exact I].
Defined.

Lemma callers_do_not_share_windows_witness :
  (enforceRateLimit demo_env (adminIdOf other_admin) "fleet" 2000
     (getFleetTracking demo_env (demo_io demo_docs) demo_admin 1000 blank).2).1
  = Returns true /\
  (enforceRateLimit demo_env (adminIdOf other_admin) (scope_string (ScopeCar (doc_id car_v1)))
     2000
     (getCarTracking demo_env (demo_io demo_docs) (doc_id car_v1) demo_admin 1000 blank).2).1
  = Returns true.
Proof.
  assert (Hne : adminIdOf demo_admin <> adminIdOf other_admin) by discriminate.
  split.
  - destruct (callers_do_not_share_windows demo_env (demo_io demo_docs) demo_admin
                other_admin blank eq_refl eq_refl Hne "fleet" 2000) as [_ Hfleet].
    rewrite (Hfleet 1000). reflexivity.
  - destruct (callers_do_not_share_windows demo_env (demo_io demo_docs) demo_admin
                other_admin blank eq_refl eq_refl Hne
                (scope_string (ScopeCar (doc_id car_v1))) 2000) as [Hcar _].
    rewrite (Hcar (doc_id car_v1) 1000). reflexivity.
Defined.

Lemma adminGuard_passes_admins_only_witness :
  adminGuard demo_auth (demo_io demo_docs) demo_request blank
  = (Returns (Next {| id := Some demo_admin_id |}), blank) /\
  exists token sessionData sid docs u,
    guardToken demo_auth demo_request = Some token /\ token <> "" /\
    decryptJWT demo_auth token = Returns sessionData /\
    session_id_of sessionData = Some sid /\ sid <> "" /\
    isValidObjectId (demo_io demo_docs) sid = true /\
    User_documents demo_auth = Returns docs /\
    In u docs /\
    user_id u = ObjectId_text demo_auth sid /\
    user_type u = UserType_Admin demo_auth /\
    user_blacklisted u <> Some true /\
    {| id := Some demo_admin_id |} = {| id := Some (user_id u) |} /\
    blank = blank.
Proof.
  assert (Hrun : adminGuard demo_auth (demo_io demo_docs) demo_request blank
                 = (Returns (Next {| id := Some demo_admin_id |}), blank))
    by (vm_compute; reflexivity).
  split; [exact Hrun |].
  exact (adminGuard_passes_admins_only (demo_io demo_docs) demo_auth demo_request blank blank
           {| id := Some demo_admin_id |} Hrun).
Defined.

Lemma getCarTracking_failures_witness :
  getCarTracking demo_env (demo_io demo_docs) (doc_id car_down) None 1000 blank
  = (Returns (send 502 (carPayload demo_env traccar_error None None)),
     emit (EvLogError timed_out)
       (emit (EvGetDevice 44)
          (emit (EvFindById (doc_id car_down))
             (recorded (rateKey "admin" (scope_string (ScopeCar (doc_id car_down))))
                1000 blank)))).
Proof.
  destruct (getCarTracking_failures demo_env (demo_io demo_docs) (doc_id car_down) None
              1000 blank eq_refl eq_refl) as [_ Hprovider].
  assert (Hnz : 44 <> 0) by lia.
  destruct (Hprovider car_down 44 eq_refl eq_refl Hnz eq_refl) as [Hdevice _].
  exact (Hdevice timed_out eq_refl eq_refl).
Defined.
